(** * Brain execution logs: the writer, the three API servers, and their
      specification.

    The development embeds
      - [src/tools/brain_execute_wrapper.py]      (module [Wrapper]),
      - [src/tools/log_recent_executions.py]      (module [Logger]),
      - [src/api/execution_log_api.py]            (module [Base]),
      - [src/api/execution_log_api_fixed.py]      (module [Fixed]),
      - [src/api/execution_log_api_enhanced.py]   (module [Enhanced]),
    over a small model of the Python values and of the log directory
    they share.  [Request] puts [urlparse] in front of the three
    dispatchers, and [Stat] follows the enhanced listing on directories
    in which a name can have nothing behind it.  Definitions come
    first; the statements about them follow in the second half of the
    file. *)

From Stdlib Require Import String Ascii List ZArith Lia Bool.
From Stdlib Require Import Sorting.Sorted Sorting.Permutation.
Import ListNotations.
Local Open Scope string_scope.
Local Open Scope list_scope.
Set Warnings "-register-all".

(* ================================================================= *)
(** ** Python values *)

(** A Python [str] is a [string]; one [ascii] stands for one code point
    (those below 256).  Slices count characters, as in Python. *)
Module Py.

(** [c.isspace()] on the code points below 256. *)
Definition is_space (c : ascii) : bool :=
  let n := nat_of_ascii c in
  ((9 <=? n) && (n <=? 13) || (28 <=? n) && (n <=? 32)
   || (n =? 133) || (n =? 160))%nat.

Fixpoint lstrip (s : string) : string :=
  match s with
  | String c r => if is_space c then lstrip r else s
  | EmptyString => EmptyString
  end.

Fixpoint rstrip (s : string) : string :=
  match s with
  | EmptyString => EmptyString
  | String c r =>
      match rstrip r with
      | EmptyString => if is_space c then EmptyString else String c EmptyString
      | r' => String c r'
      end
  end.

(** [s.strip()] *)
Definition strip (s : string) : string := lstrip (rstrip s).

(** [s[:n]] *)
Fixpoint take (n : nat) (s : string) : string :=
  match n, s with
  | S k, String c r => String c (take k r)
  | _, _ => EmptyString
  end.

(** [s[n:]] *)
Fixpoint drop (n : nat) (s : string) : string :=
  match n, s with
  | S k, String _ r => drop k r
  | _, _ => s
  end.

(** [s.startswith(p)] *)
Definition startswith (s p : string) : bool := prefix p s.

(** [s.endswith(p)] *)
Definition endswith (s p : string) : bool :=
  (String.length p <=? String.length s)%nat
  && (drop (String.length s - String.length p) s =? p).

(** [s.find(sub)], with [None] for [-1]. *)
Fixpoint find (sub s : string) : option nat :=
  if prefix sub s then Some 0%nat
  else match s with
       | EmptyString => None
       | String _ r => option_map S (find sub r)
       end.

(** [sub in s] on two strings. *)
Definition contains (sub s : string) : bool :=
  match find sub s with Some _ => true | None => false end.

(** [s.split(sep, 1)] when [sep] occurs in [s]: the text before the
    first occurrence and the text after it. *)
Definition split_once (sep s : string) : option (string * string) :=
  match find sep s with
  | Some i => Some (take i s, drop (i + String.length sep) s)
  | None => None
  end.

(** [s.split(c)] for a one-character separator. *)
Fixpoint split (c : ascii) (s : string) : list string :=
  match s with
  | EmptyString => [EmptyString]
  | String a r =>
      if Ascii.eqb a c then EmptyString :: split c r
      else match split c r with
           | h :: t => String a h :: t
           | [] => [String a EmptyString]
           end
  end.

(** [s.split(c)[-1]] *)
Definition last_field (c : ascii) (s : string) : string :=
  last (split c s) EmptyString.

(** [s.replace(old, "")] for a non-empty [old]: [skip] counts the
    characters of a matched occurrence still to be dropped. *)
Fixpoint remove_from (old : string) (skip : nat) (s : string) : string :=
  match s with
  | EmptyString => EmptyString
  | String c r =>
      match skip with
      | S k => remove_from old k r
      | O => if prefix old s
             then remove_from old (String.length old - 1) r
             else String c (remove_from old 0 r)
      end
  end.

Definition remove (old s : string) : string := remove_from old 0 s.

(** [l[-n:]] and [l[:n]] on lists. *)
Definition tail_n {A : Type} (n : nat) (l : list A) : list A :=
  skipn (length l - n) l.

Definition head_n {A : Type} (n : nat) (l : list A) : list A := firstn n l.

(** The exceptions the handlers can meet. *)
Inductive exn : Type := TypeError | AttributeError | KeyError | OSError.

Inductive result (A : Type) : Type :=
| Ok (a : A)
| Raise (e : exn).
Arguments Ok {A} a.
Arguments Raise {A} e.

Definition rbind {A B : Type} (r : result A) (k : A -> result B) : result B :=
  match r with
  | Ok a => k a
  | Raise e => Raise e
  end.

Fixpoint rmap {A B : Type} (f : A -> result B) (l : list A) : result (list B) :=
  match l with
  | [] => Ok []
  | x :: r => rbind (f x) (fun y => rbind (rmap f r) (fun ys => Ok (y :: ys)))
  end.

(** The values [json.loads] produces.  A number is an integer here: no
    handler looks at a number beyond testing it against zero.  [JObj]
    lists the items of a [dict] in their order; a key is looked up at its
    first binding. *)
Inductive json : Type :=
| JNull
| JBool (b : bool)
| JNum (n : Z)
| JStr (s : string)
| JArr (l : list json)
| JObj (kvs : list (string * json)).

(** [d.get(k)] as an option: the binding of [k] in a [dict]. *)
Fixpoint dict_get (k : string) (kvs : list (string * json)) : option json :=
  match kvs with
  | [] => None
  | (k', v) :: r => if k' =? k then Some v else dict_get k r
  end.

Definition dict_has (k : string) (kvs : list (string * json)) : bool :=
  match dict_get k kvs with Some _ => true | None => false end.

(** [d[k] = v] for a key already present: the binding keeps its place. *)
Fixpoint dict_set (k : string) (v : json) (kvs : list (string * json))
  : list (string * json) :=
  match kvs with
  | [] => [(k, v)]
  | (k', v') :: r => if k' =? k then (k, v) :: r else (k', v') :: dict_set k v r
  end.

Definition is_str (s : string) (v : json) : bool :=
  match v with JStr t => t =? s | _ => false end.

(** Truth value of a JSON value in a condition. *)
Definition truthy (v : json) : bool :=
  match v with
  | JNull => false
  | JBool b => b
  | JNum n => negb (n =? 0)%Z
  | JStr s => negb (s =? "")
  | JArr l => match l with [] => false | _ => true end
  | JObj kvs => match kvs with [] => false | _ => true end
  end.

(** ['k' in v]: key test on a dict, element test on a list, substring
    test on a str, [TypeError] on the rest. *)
Definition py_in (k : string) (v : json) : result bool :=
  match v with
  | JObj kvs => Ok (dict_has k kvs)
  | JArr l => Ok (existsb (is_str k) l)
  | JStr s => Ok (contains k s)
  | _ => Raise TypeError
  end.

(** [v['k']] *)
Definition py_index (v : json) (k : string) : result json :=
  match v with
  | JObj kvs => match dict_get k kvs with
                | Some x => Ok x
                | None => Raise KeyError
                end
  | _ => Raise TypeError
  end.

(** [v.get('k', default)] *)
Definition py_get (v : json) (k : string) (default : json) : result json :=
  match v with
  | JObj kvs => match dict_get k kvs with
                | Some x => Ok x
                | None => Ok default
                end
  | _ => Raise AttributeError
  end.

(** [v[:n]] *)
Definition py_slice (n : nat) (v : json) : result json :=
  match v with
  | JStr s => Ok (JStr (take n s))
  | JArr l => Ok (JArr (head_n n l))
  | _ => Raise TypeError
  end.

(** [v.strip()] *)
Definition py_strip (v : json) : result json :=
  match v with
  | JStr s => Ok (JStr (strip s))
  | _ => Raise AttributeError
  end.

(** [a, b = v.split(sep, 1)] under the guard [sep in v]. *)
Definition py_split_once (sep : string) (v : json) : result (json * json) :=
  match v with
  | JStr s => match split_once sep s with
              | Some (a, b) => Ok (JStr a, JStr b)
              | None => Raise TypeError
              end
  | _ => Raise AttributeError
  end.

(** [a < b] between sort keys: strings by code point, numbers and
    booleans by value, [TypeError] between anything else (arrays used as
    keys are outside the model and are reported the same way). *)
Definition num_of (v : json) : option Z :=
  match v with
  | JNum n => Some n
  | JBool b => Some (if b then 1 else 0)%Z
  | _ => None
  end.

Definition py_lt (a b : json) : result bool :=
  match a, b with
  | JStr s, JStr t => Ok (String.ltb s t)
  | _, _ => match num_of a, num_of b with
            | Some m, Some n => Ok (m <? n)%Z
            | _, _ => Raise TypeError
            end
  end.

(** [l.sort(key=..., reverse=True)] and [sorted(l, reverse=True)]: the
    keys are computed first; the sort is stable, so of two elements
    with equal keys the one first in [l] stays first. *)
Section Sort.
Context {A K : Type}.
Variable lt : K -> K -> result bool.

Fixpoint insert_rev (x : K * A) (l : list (K * A)) : result (list (K * A)) :=
  match l with
  | [] => Ok [x]
  | y :: r =>
      rbind (lt (fst x) (fst y)) (fun b =>
        if b then rbind (insert_rev x r) (fun r' => Ok (y :: r'))
        else Ok (x :: y :: r))
  end.

Fixpoint sort_keyed (l : list (K * A)) : result (list (K * A)) :=
  match l with
  | [] => Ok []
  | x :: r => rbind (sort_keyed r) (insert_rev x)
  end.

Definition sort_reverse (key : A -> result K) (l : list A) : result (list A) :=
  rbind (rmap key l) (fun ks =>
  rbind (sort_keyed (combine ks l)) (fun s => Ok (map snd s))).
End Sort.

(** [max(l, key=...)]: the first element whose key is largest. *)
Fixpoint max_by {A : Type} (key : A -> Z) (l : list A) : option A :=
  match l with
  | [] => None
  | x :: r => match max_by key r with
              | Some y => if (key x <? key y)%Z then Some y else Some x
              | None => Some x
              end
  end.

(** Local variables that survive an exception: a computation over the
    locals [S] that may stop early. *)
Definition Try (S A : Type) : Type := S -> result A * S.

Definition ret {S A : Type} (a : A) : Try S A := fun s => (Ok a, s).

Definition bind {S A B : Type} (m : Try S A) (k : A -> Try S B) : Try S B :=
  fun s => match m s with
           | (Ok a, s') => k a s'
           | (Raise e, s') => (Raise e, s')
           end.

Definition lift {S A : Type} (r : result A) : Try S A := fun s => (r, s).

Definition assign {S : Type} (f : S -> S) : Try S unit := fun s => (Ok tt, f s).

Definition when {S : Type} (b : bool) (m : Try S unit) : Try S unit :=
  if b then m else ret tt.

(** [try: m / except: pass] *)
Definition except_pass {S : Type} (m : Try S unit) (s : S) : S := snd (m s).

End Py.

Import Py.

Declare Scope try_scope.
Delimit Scope try_scope with try.
Notation "x <- m ;; k" := (bind m (fun x => k))
  (at level 61, m at next level, right associativity) : try_scope.
Notation "m ;;; k" := (bind m (fun _ => k))
  (at level 61, right associativity) : try_scope.
Notation "'let?' x := r 'in' k" := (rbind r (fun x => k))
  (at level 10, x name, r at level 100, k at level 200).

(** A computation keeps a local when no path through it changes it. *)
Definition keeps {S A : Type} (proj : S -> json) (m : Try S A) : Prop :=
  forall s, proj (snd (m s)) = proj s.

(* ================================================================= *)
(** ** The log directory *)

(** A line of a log file, as the readers see it: [line.strip()] is empty,
    or [json.loads(line)] raises, or it yields a value. *)
Inductive line : Type :=
| Blank
| Malformed
| Parsed (v : json).

(** The dictionary the wrapper builds in [create_log_entry]. *)
Record log_entry : Type := mk_log_entry {
  le_id : string;
  le_timestamp : string;
  le_type : string;
  le_description : string;
  le_code : string;
  le_status : string;
  le_output : string;
  le_error : string;
  le_execution_time : Z
}.

(** What a file holds: lines of events, or one dictionary written by
    [json.dump(log_entry, f, indent=2)]. *)
Inductive content : Type :=
| Events (ls : list line)
| Snapshot (e : log_entry).

(** [json.dump(..., indent=2)] of the nine-key dictionary lays it out on
    eleven lines: the two braces and one line per key.  None of them is
    blank and none is a JSON text of its own. *)
Definition lines_of (c : content) : list line :=
  match c with
  | Events ls => ls
  | Snapshot _ => repeat Malformed 11
  end.

(** A file of the directory: its modification time, whether [open]
    succeeds, and what it holds. *)
Record file : Type := mk_file {
  mtime : Z;
  readable : bool;
  holds : content
}.

(** The directory [LOG_DIR]: file names with their files, in the order
    the operating system lists them. *)
Definition store : Type := list (string * file).

Definition LOG_DIR : string := "/Users/bard/Code/brain/logs/execution".

Fixpoint lookup (name : string) (d : store) : option file :=
  match d with
  | [] => None
  | (n, f) :: r => if n =? name then Some f else lookup name r
  end.

(** [os.path.exists(os.path.join(LOG_DIR, name))] *)
Definition path_exists (name : string) (d : store) : bool :=
  match lookup name d with Some _ => true | None => false end.

(** [open(log_file, 'r')] followed by reading every line. *)
Definition read_lines (f : file) : result (list line) :=
  if readable f then Ok (lines_of (holds f)) else Raise OSError.

(** [glob.glob(os.path.join(LOG_DIR, "exec_*.json"))] *)
Definition glob_exec (d : store) : list (string * file) :=
  filter (fun p => startswith (fst p) "exec_"
                   && endswith (drop 5 (fst p)) ".json") d.

(** The loop shared by the readers:
    [for line in f: if line.strip(): try: entries.append(json.loads(line))
     except: pass]. *)
Fixpoint entries_of (ls : list line) : list json :=
  match ls with
  | [] => []
  | Parsed v :: r => v :: entries_of r
  | _ :: r => entries_of r
  end.

(** [f"exec_{execution_id}.json"], the name the servers look up. *)
Definition api_file_name (execution_id : string) : string :=
  "exec_" ++ execution_id ++ ".json".

(* ================================================================= *)
(** ** Responses *)

(** The body written to [wfile]: a JSON text, or [{"error": str(e)}] for
    a caught exception [e] (the message text is not modelled). *)
Inductive payload : Type :=
| Json (j : json)
| ErrorOf (e : exn).

Record response : Type := mk_response {
  resp_status : Z;
  resp_content_type : string;
  resp_allow_origin : string;
  resp_body : payload
}.

(** [self.send_response(200)] and the two headers open every reply. *)
Definition reply (p : payload) : response :=
  {| resp_status := 200;
     resp_content_type := "application/json";
     resp_allow_origin := "*";
     resp_body := p |}.

(** The keys of the object a body consists of. *)
Definition top_keys (p : payload) : list string :=
  match p with
  | Json (JObj kvs) => map fst kvs
  | Json _ => []
  | ErrorOf _ => ["error"]
  end.

Definition is_object (p : payload) : bool :=
  match p with
  | Json (JObj _) => true
  | Json _ => false
  | ErrorOf _ => true
  end.

Definition has_error_key (p : payload) : bool :=
  existsb (String.eqb "error") (top_keys p).

Definition count_of {A : Type} (l : list A) : json := JNum (Z.of_nat (length l)).

Definition not_found : payload :=
  Json (JObj [("error", JStr "Execution not found")]).

Definition unknown_endpoint : payload :=
  Json (JObj [("error", JStr "Unknown endpoint")]).

(** The branch [do_GET] takes. *)
Inductive endpoint : Type :=
| Root
| ListExecutions
| GetExecution (execution_id : string)
| LatestUpdates
| AllEntries
| Health
| Unknown.

(* ================================================================= *)
(** ** [execution_log_api.py] *)

Module Base.

Definition route (path : string) : endpoint :=
  if path =? "/" then Root
  else if path =? "/api/brain/executions" then ListExecutions
  else if startswith path "/api/brain/executions/"
       then GetExecution (last_field "/" path)
  else if path =? "/api/brain/executions/latest" then LatestUpdates
  else if path =? "/health" then Health
  else Unknown.

Definition api_info : payload :=
  Json (JObj
    [("service", JStr "Brain Execution API");
     ("version", JStr "1.0.0");
     ("endpoints", JArr
        [JStr "/health - API health check";
         JStr "/api/brain/executions - List recent executions";
         JStr "/api/brain/executions/{id} - Get specific execution log";
         JStr "/api/brain/executions/latest - Get latest log entries"]);
     ("log_dir", JStr LOG_DIR)]).

Definition health : payload :=
  Json (JObj
    [("status", JStr "healthy");
     ("service", JStr "brain-execution-api");
     ("log_dir", JStr LOG_DIR)]).

(** The body of the loop of [handle_list_executions]: the first line of
    the file gives the item; any exception drops the file. *)
Definition first_line_item (p : string * file) : list json :=
  match read_lines (snd p) with
  | Raise _ => []
  | Ok [] => []
  | Ok (Parsed data :: _) =>
      match
        (let? id := py_get data "execution_id" JNull in
         let? ts := py_get data "timestamp" JNull in
         let? lang := py_get data "language" (JStr "unknown") in
         let? st := py_get data "status" (JStr "unknown") in
         Ok (JObj [("id", id); ("timestamp", ts); ("language", lang);
                   ("status", st); ("file", JStr (fst p))]))
      with
      | Ok item => [item]
      | Raise _ => []
      end
  | Ok (_ :: _) => []
  end.

(** [sorted(log_files, reverse=True)]: by path, that is by name. *)
Definition by_name_desc (l : list (string * file)) : result (list (string * file)) :=
  sort_reverse (fun a b => Ok (String.ltb a b)) (fun p => Ok (fst p)) l.

Definition handle_list_executions (d : store) : payload :=
  match by_name_desc (glob_exec d) with
  | Raise e => ErrorOf e
  | Ok log_files =>
      let executions := flat_map first_line_item (head_n 20 log_files) in
      Json (JObj [("executions", JArr executions);
                  ("count", count_of executions)])
  end.

Definition handle_get_execution (d : store) (execution_id : string) : payload :=
  match lookup (api_file_name execution_id) d with
  | None => not_found
  | Some f =>
      match read_lines f with
      | Raise e => ErrorOf e
      | Ok ls =>
          let entries := entries_of ls in
          Json (JObj [("execution_id", JStr execution_id);
                      ("entries", JArr entries);
                      ("count", count_of entries)])
      end
  end.

Definition handle_latest_updates (d : store) : payload :=
  match max_by (fun p => mtime (snd p)) (glob_exec d) with
  | None => Json (JObj [("entries", JArr []); ("count", JNum 0)])
  | Some latest_file =>
      match read_lines (snd latest_file) with
      | Raise e => ErrorOf e
      | Ok ls =>
          let entries := entries_of (tail_n 50 ls) in
          Json (JObj [("entries", JArr entries);
                      ("count", count_of entries);
                      ("execution_id",
                       JStr (remove ".json" (remove "exec_" (fst latest_file))))])
      end
  end.

Definition serve (d : store) (e : endpoint) : payload :=
  match e with
  | Root => api_info
  | ListExecutions => handle_list_executions d
  | GetExecution execution_id => handle_get_execution d execution_id
  | LatestUpdates => handle_latest_updates d
  | Health => health
  | AllEntries | Unknown => unknown_endpoint
  end.

(** [do_GET] from its second statement on: [path] is [parsed_path.path],
    the path that [urlparse] finds in the request target.  [Request]
    below has the first statement. *)
Definition do_GET (d : store) (path : string) : response :=
  reply (serve d (route path)).

End Base.

(* ================================================================= *)
(** ** [execution_log_api_fixed.py] *)

Module Fixed.

(** The dispatcher is the one of the base server. *)
Definition route (path : string) : endpoint :=
  if path =? "/" then Root
  else if path =? "/api/brain/executions" then ListExecutions
  else if startswith path "/api/brain/executions/"
       then GetExecution (last_field "/" path)
  else if path =? "/api/brain/executions/latest" then LatestUpdates
  else if path =? "/health" then Health
  else Unknown.

Definition api_info : payload :=
  Json (JObj
    [("service", JStr "Brain Execution API");
     ("version", JStr "1.0.1");
     ("endpoints", JArr
        [JStr "/health - API health check";
         JStr "/api/brain/executions - List recent executions";
         JStr "/api/brain/executions/{id} - Get specific execution log";
         JStr "/api/brain/executions/latest - Get latest log entries"]);
     ("log_dir", JStr LOG_DIR)]).

Definition health : payload :=
  Json (JObj
    [("status", JStr "healthy");
     ("service", JStr "brain-execution-api");
     ("version", JStr "1.0.1");
     ("log_dir", JStr LOG_DIR)]).

(** The local variables of [get_execution_final_status]. *)
Record locals : Type := mk_locals {
  status : json;
  timestamp : json;
  execution_id : json;
  language : json
}.

Definition initial : locals :=
  {| status := JStr "running"; timestamp := JNull;
     execution_id := JNull; language := JStr "unknown" |}.

Definition set_execution_id (v : json) (s : locals) : locals :=
  {| status := status s; timestamp := timestamp s;
     execution_id := v; language := language s |}.

Definition set_language (v : json) (s : locals) : locals :=
  {| status := status s; timestamp := timestamp s;
     execution_id := execution_id s; language := v |}.

Definition set_status (v : json) (s : locals) : locals :=
  {| status := v; timestamp := timestamp s;
     execution_id := execution_id s; language := language s |}.

Definition set_timestamp (v : json) (s : locals) : locals :=
  {| status := status s; timestamp := v;
     execution_id := execution_id s; language := language s |}.

(** [if 'k' in entry: var = entry['k']] *)
Definition pick (k : string) (set : json -> locals -> locals) (entry : json)
  : Try locals unit :=
  (b <- lift (py_in k entry) ;;
   when b (v <- lift (py_index entry k) ;; assign (set v)))%try.

(** The statements under the inner [try]. *)
Definition scan_entry (entry : json) : Try locals unit :=
  (pick "execution_id" set_execution_id entry ;;;
   pick "language" set_language entry ;;;
   pick "status" set_status entry ;;;
   pick "timestamp" set_timestamp entry)%try.

Definition scan_line (s : locals) (l : line) : locals :=
  match l with
  | Blank => s
  | Malformed => s
  | Parsed entry => except_pass (scan_entry entry) s
  end.

(** The outer [try]: a file that cannot be opened leaves the defaults. *)
Definition scan_file (f : file) : locals :=
  match read_lines f with
  | Ok ls => fold_left scan_line ls initial
  | Raise _ => initial
  end.

Definition summary_dict (name : string) (s : locals) : json :=
  JObj [("id", execution_id s); ("timestamp", timestamp s);
        ("language", language s); ("status", status s);
        ("file", JStr name)].

Definition get_execution_final_status (p : string * file) : json :=
  summary_dict (fst p) (scan_file (snd p)).

(** The body of the loop of [handle_list_executions]. *)
Definition list_item (p : string * file) : list json :=
  if truthy (execution_id (scan_file (snd p)))
  then [get_execution_final_status p] else [].

Definition handle_list_executions (d : store) : payload :=
  match Base.by_name_desc (glob_exec d) with
  | Raise e => ErrorOf e
  | Ok log_files =>
      let executions := flat_map list_item (head_n 20 log_files) in
      Json (JObj [("executions", JArr executions);
                  ("count", count_of executions)])
  end.

(** [handle_get_execution] and [handle_latest_updates] have the text of
    the base server. *)
Definition handle_get_execution : store -> string -> payload :=
  Base.handle_get_execution.

Definition handle_latest_updates : store -> payload :=
  Base.handle_latest_updates.

Definition serve (d : store) (e : endpoint) : payload :=
  match e with
  | Root => api_info
  | ListExecutions => handle_list_executions d
  | GetExecution id => handle_get_execution d id
  | LatestUpdates => handle_latest_updates d
  | Health => health
  | AllEntries | Unknown => unknown_endpoint
  end.

(** [do_GET] from its second statement on: [path] is [parsed_path.path],
    the path that [urlparse] finds in the request target.  [Request]
    below has the first statement. *)
Definition do_GET (d : store) (path : string) : response :=
  reply (serve d (route path)).

End Fixed.

(* ================================================================= *)
(** ** [execution_log_api_enhanced.py] *)

Module Enhanced.

Definition route (path : string) : endpoint :=
  if path =? "/" then Root
  else if path =? "/api/brain/executions" then ListExecutions
  else if startswith path "/api/brain/executions/" then
    let endpoint := last_field "/" path in
    if endpoint =? "latest" then LatestUpdates
    else if endpoint =? "all" then AllEntries
    else GetExecution endpoint
  else if path =? "/health" then Health
  else Unknown.

Definition api_info : payload :=
  Json (JObj
    [("service", JStr "Brain Execution API");
     ("version", JStr "1.1.0");
     ("endpoints", JArr
        [JStr "/health - API health check";
         JStr "/api/brain/executions - List recent executions";
         JStr "/api/brain/executions/{id} - Get specific execution log";
         JStr "/api/brain/executions/latest - Get latest log entries";
         JStr "/api/brain/executions/all - Get all execution entries (last 100)"]);
     ("log_dir", JStr LOG_DIR)]).

Definition health : payload :=
  Json (JObj
    [("status", JStr "healthy");
     ("service", JStr "brain-execution-api");
     ("version", JStr "1.1.0");
     ("log_dir", JStr LOG_DIR)]).

(** The line feed and the marker ['\n\nErrors:\n']. *)
Definition LF : string := String (ascii_of_nat 10) EmptyString.

Definition ERRORS_MARKER : string := LF ++ LF ++ "Errors:" ++ LF.

(** The local variables of [get_execution_summary]. *)
Record locals : Type := mk_locals {
  status : json;
  timestamp : json;
  execution_id : json;
  language : json;
  code_preview : json;
  output_preview : json;
  error_preview : json;
  description : json
}.

Definition initial : locals :=
  {| status := JStr "running"; timestamp := JNull;
     execution_id := JNull; language := JStr "unknown";
     code_preview := JStr ""; output_preview := JStr "";
     error_preview := JStr ""; description := JStr "" |}.

Definition set_execution_id (v : json) (s : locals) : locals :=
  {| status := status s; timestamp := timestamp s; execution_id := v;
     language := language s; code_preview := code_preview s;
     output_preview := output_preview s; error_preview := error_preview s;
     description := description s |}.

Definition set_language (v : json) (s : locals) : locals :=
  {| status := status s; timestamp := timestamp s;
     execution_id := execution_id s; language := v;
     code_preview := code_preview s; output_preview := output_preview s;
     error_preview := error_preview s; description := description s |}.

Definition set_status (v : json) (s : locals) : locals :=
  {| status := v; timestamp := timestamp s; execution_id := execution_id s;
     language := language s; code_preview := code_preview s;
     output_preview := output_preview s; error_preview := error_preview s;
     description := description s |}.

Definition set_timestamp (v : json) (s : locals) : locals :=
  {| status := status s; timestamp := v; execution_id := execution_id s;
     language := language s; code_preview := code_preview s;
     output_preview := output_preview s; error_preview := error_preview s;
     description := description s |}.

Definition set_code_preview (v : json) (s : locals) : locals :=
  {| status := status s; timestamp := timestamp s;
     execution_id := execution_id s; language := language s;
     code_preview := v; output_preview := output_preview s;
     error_preview := error_preview s; description := description s |}.

Definition set_output_preview (v : json) (s : locals) : locals :=
  {| status := status s; timestamp := timestamp s;
     execution_id := execution_id s; language := language s;
     code_preview := code_preview s; output_preview := v;
     error_preview := error_preview s; description := description s |}.

Definition set_error_preview (v : json) (s : locals) : locals :=
  {| status := status s; timestamp := timestamp s;
     execution_id := execution_id s; language := language s;
     code_preview := code_preview s; output_preview := output_preview s;
     error_preview := v; description := description s |}.

Definition set_description (v : json) (s : locals) : locals :=
  {| status := status s; timestamp := timestamp s;
     execution_id := execution_id s; language := language s;
     code_preview := code_preview s; output_preview := output_preview s;
     error_preview := error_preview s; description := v |}.

(** [if 'k' in entry: var = entry['k']] *)
Definition pick (k : string) (set : json -> locals -> locals) (entry : json)
  : Try locals unit :=
  (b <- lift (py_in k entry) ;;
   when b (v <- lift (py_index entry k) ;; assign (set v)))%try.

(** The branch [entry.get('type') == 'code']. *)
Definition capture_code (entry : json) : Try locals unit :=
  (code <- lift (py_get entry "code" (JStr "")) ;;
   preview <- lift (py_slice 200 code) ;;
   assign (set_code_preview preview) ;;;
   message <- lift (py_get entry "message" (JStr "")) ;;
   assign (set_description message))%try.

(** The branch [entry.get('type') == 'output']. *)
Definition capture_output (entry : json) : Try locals unit :=
  (output_text <- lift (py_get entry "output" (JStr "")) ;;
   if truthy output_text then
     has_marker <- lift (py_in ERRORS_MARKER output_text) ;;
     if has_marker then
       parts <- lift (py_split_once ERRORS_MARKER output_text) ;;
       output_part <- lift (py_slice 200 (fst parts)) ;;
       assign (set_output_preview output_part) ;;;
       error_part <- lift (py_slice 200 (snd parts)) ;;
       assign (set_error_preview error_part)
     else
       preview <- lift (py_slice 200 output_text) ;;
       assign (set_output_preview preview)
   else ret tt)%try.

(** The statements under [# Capture content previews]. *)
Definition capture (entry : json) : Try locals unit :=
  (kind <- lift (py_get entry "type" JNull) ;;
   if is_str "code" kind then capture_code entry
   else
     kind' <- lift (py_get entry "type" JNull) ;;
     if is_str "output" kind' then capture_output entry
     else ret tt)%try.

(** The statements under the inner [try]. *)
Definition scan_entry (entry : json) : Try locals unit :=
  (pick "execution_id" set_execution_id entry ;;;
   pick "language" set_language entry ;;;
   pick "status" set_status entry ;;;
   pick "timestamp" set_timestamp entry ;;;
   capture entry)%try.

Definition scan_line (s : locals) (l : line) : locals :=
  match l with
  | Blank => s
  | Malformed => s
  | Parsed entry => except_pass (scan_entry entry) s
  end.

(** The outer [try]: a file that cannot be opened leaves the defaults. *)
Definition scan_file (f : file) : locals :=
  match read_lines f with
  | Ok ls => fold_left scan_line ls initial
  | Raise _ => initial
  end.

Definition summary_dict (name : string) (s : locals) : json :=
  JObj [("id", execution_id s); ("timestamp", timestamp s);
        ("language", language s); ("status", status s);
        ("description", description s);
        ("code_preview", code_preview s);
        ("output_preview", output_preview s);
        ("error_preview", error_preview s);
        ("file", JStr name)].

Definition get_execution_summary (p : string * file) : json :=
  summary_dict (fst p) (scan_file (snd p)).

(** [log_files.sort(key=os.path.getmtime, reverse=True)], on a [store]:
    every name has a file there, and the key of a file is its [mtime].
    [Stat.by_mtime_desc] below has the key that raises. *)
Definition by_mtime_desc (l : list (string * file)) : result (list (string * file)) :=
  sort_reverse (fun a b => Ok (a <? b)%Z) (fun p => Ok (mtime (snd p))) l.

(** The body of the loop of [handle_list_executions]. *)
Definition list_item (p : string * file) : list json :=
  if truthy (execution_id (scan_file (snd p)))
  then [get_execution_summary p] else [].

Definition handle_list_executions (d : store) : payload :=
  match by_mtime_desc (glob_exec d) with
  | Raise e => ErrorOf e
  | Ok log_files =>
      let executions := flat_map list_item (head_n 50 log_files) in
      Json (JObj [("executions", JArr executions);
                  ("count", count_of executions);
                  ("total_available", count_of log_files)])
  end.

(** [entry[k] = v] *)
Definition py_setitem (entry : json) (k : string) (v : json) : result json :=
  match entry with
  | JObj kvs => Ok (JObj (dict_set k v kvs))
  | _ => Raise TypeError
  end.

(** [if 'k' in entry: entry['k'] = entry['k'].strip()] *)
Definition strip_field (k : string) (entry : json) : result json :=
  let? present := py_in k entry in
  if present then
    let? v := py_index entry k in
    let? v' := py_strip v in
    py_setitem entry k v'
  else Ok entry.

(** The inner [try] of [handle_get_execution]: the entry, or nothing when
    a statement raises. *)
Definition tidy (entry : json) : list json :=
  match (let? e1 := strip_field "code" entry in strip_field "output" e1) with
  | Ok e => [e]
  | Raise _ => []
  end.

Definition handle_get_execution (d : store) (execution_id : string) : payload :=
  match lookup (api_file_name execution_id) d with
  | None => not_found
  | Some f =>
      match read_lines f with
      | Raise e => ErrorOf e
      | Ok ls =>
          let entries := flat_map tidy (entries_of ls) in
          Json (JObj [("execution_id", JStr execution_id);
                      ("entries", JArr entries);
                      ("count", count_of entries)])
      end
  end.

(** [all_entries.sort(key=lambda x: x.get('timestamp', ''), reverse=True)] *)
Definition by_timestamp_desc (l : list json) : result (list json) :=
  sort_reverse py_lt (fun x => py_get x "timestamp" (JStr "")) l.

(** The loop over the ten newest files: the last ten entries of each. *)
Fixpoint collect_tails (log_files : list (string * file)) : result (list json) :=
  match log_files with
  | [] => Ok []
  | p :: r =>
      let? ls := read_lines (snd p) in
      let? rest := collect_tails r in
      Ok (tail_n 10 (entries_of ls) ++ rest)
  end.

Definition handle_latest_updates (d : store) : payload :=
  match glob_exec d with
  | [] => Json (JObj [("entries", JArr []); ("count", JNum 0)])
  | log_files =>
      match
        (let? sorted := by_mtime_desc log_files in
         let? all_entries := collect_tails (head_n 10 sorted) in
         let? ordered := by_timestamp_desc all_entries in
         Ok (head_n 50 ordered))
      with
      | Raise e => ErrorOf e
      | Ok latest_entries =>
          Json (JObj [("entries", JArr latest_entries);
                      ("count", count_of latest_entries)])
      end
  end.

(** The loop over the twenty newest files: every entry of each. *)
Fixpoint collect_all (log_files : list (string * file)) : result (list json) :=
  match log_files with
  | [] => Ok []
  | p :: r =>
      let? ls := read_lines (snd p) in
      let? rest := collect_all r in
      Ok (entries_of ls ++ rest)
  end.

Definition handle_all_entries (d : store) : payload :=
  match
    (let? sorted := by_mtime_desc (glob_exec d) in
     let? all_entries := collect_all (head_n 20 sorted) in
     by_timestamp_desc all_entries)
  with
  | Raise e => ErrorOf e
  | Ok all_entries =>
      Json (JObj [("entries", JArr (head_n 100 all_entries));
                  ("count", count_of (head_n 100 all_entries));
                  ("total_available", count_of all_entries)])
  end.

Definition serve (d : store) (e : endpoint) : payload :=
  match e with
  | Root => api_info
  | ListExecutions => handle_list_executions d
  | GetExecution id => handle_get_execution d id
  | LatestUpdates => handle_latest_updates d
  | AllEntries => handle_all_entries d
  | Health => health
  | Unknown => unknown_endpoint
  end.

(** [do_GET] from its second statement on: [path] is [parsed_path.path],
    the path that [urlparse] finds in the request target.  [Request]
    below has the first statement. *)
Definition do_GET (d : store) (path : string) : response :=
  reply (serve d (route path)).

End Enhanced.

(* ================================================================= *)
(** ** The request target *)

Module Request.

Section Parse.

(** [urlparse(self.path).path], taken as given: the path of the request
    target, without the parameters, the query and the fragment that
    [urlparse] splits off; nothing when [urlparse] raises, and then
    [do_GET] ends before a response is begun. *)
Variable url_path : string -> option string.

(** [do_GET] of the three servers, from the first statement. *)
Definition base (d : store) (target : string) : option response :=
  option_map (Base.do_GET d) (url_path target).

Definition fixed (d : store) (target : string) : option response :=
  option_map (Fixed.do_GET d) (url_path target).

Definition enhanced (d : store) (target : string) : option response :=
  option_map (Enhanced.do_GET d) (url_path target).

End Parse.

End Request.

(* ================================================================= *)
(** ** The enhanced listing and names that cannot be stat'ed *)

(** [store] has a file behind every name.  A directory can also hold a
    name with nothing behind it, such as a symbolic link whose target is
    gone: the pattern of [glob] matches the name, and [os.path.getmtime]
    and [open] raise on it.  [Stat] follows [handle_list_executions] of
    the enhanced server, whose sort key is [os.path.getmtime], on such
    directories. *)
Module Stat.


Inductive node : Type :=
| Regular (f : file)
| Dangling.

Definition directory : Type := list (string * node).


(** [os.path.getmtime] *)
Definition getmtime (n : node) : result Z :=
  match n with
  | Regular f => Ok (mtime f)
  | Dangling => Raise OSError
  end.

(** [glob.glob(os.path.join(LOG_DIR, "exec_*.json"))] *)
Definition glob_exec (d : directory) : list (string * node) :=
  filter (fun p => startswith (fst p) "exec_"
                   && endswith (drop 5 (fst p)) ".json") d.

(** [log_files.sort(key=os.path.getmtime, reverse=True)] *)
Definition by_mtime_desc (l : list (string * node)) : result (list (string * node)) :=
  sort_reverse (fun a b => Ok (a <? b)%Z) (fun p => getmtime (snd p)) l.

(** The fold of [get_execution_summary]: [open] raises on a name with
    nothing behind it, and the outer [try] leaves the defaults. *)
Definition scan (n : node) : Enhanced.locals :=
  match n with
  | Regular f => Enhanced.scan_file f
  | Dangling => Enhanced.initial
  end.

Definition get_execution_summary (p : string * node) : json :=
  Enhanced.summary_dict (fst p) (scan (snd p)).

Definition list_item (p : string * node) : list json :=
  if truthy (Enhanced.execution_id (scan (snd p)))
  then [get_execution_summary p] else [].



Definition handle_list_executions (d : directory) : payload :=
  match by_mtime_desc (glob_exec d) with
  | Raise e => ErrorOf e
  | Ok log_files =>
      let executions := flat_map list_item (head_n 50 log_files) in
      Json (JObj [("executions", JArr executions);
                  ("count", count_of executions);
                  ("total_available", count_of log_files)])
  end.

End Stat.

(* ================================================================= *)
(** ** [brain_execute_wrapper.py] *)

Module Wrapper.

(** What [subprocess.run] is asked to start: [['python3', '-c', code]],
    or [code] with [shell=True]. *)
Inductive command : Type :=
| Python3 (code : string)
| Shell (code : string).

(** What a command does once started: it exits by itself after some
    milliseconds with its two streams, which decode as text; or it exits
    by itself and what it wrote is not text, so that [text=True] raises
    when the streams are decoded; or it never exits by itself; or it
    cannot be started at all.  The commands followed are those that leave
    the log directory alone: what a command itself writes there is not
    part of [world]. *)
Inductive behaviour : Type :=
| Exits (after : Z) (stdout stderr : string)
| Garbles (after : Z) (message : string)
| Runs_on
| Cannot_start (message : string).

(** What the wrapper does to the outside, in order. *)
Inductive action : Type :=
| Spawned (c : command)
| Killed (c : command)
| Saved (name : string) (e : log_entry).

(** The outside: the log directory, the clock in milliseconds, the
    behaviour of every command, and the actions so far. *)
Record world : Type := mk_world {
  files : store;
  clock : Z;
  programs : command -> behaviour;
  trace : list action
}.

(** [open(log_file, 'w')]: the file is replaced, or created. *)
Fixpoint write_file (name : string) (f : file) (d : store) : store :=
  match d with
  | [] => [(name, f)]
  | (n, g) :: r => if n =? name then (name, f) :: r else (n, g) :: write_file name f r
  end.

(** The result of [subprocess.run(..., timeout=t)]. *)
Inductive run_result : Type :=
| CompletedProcess (stdout stderr : string)
| TimeoutExpired
| OtherException (message : string).

(** [subprocess.run] with a timeout: a child still running when the
    timeout expires is killed and [TimeoutExpired] is raised, before
    anything is decoded; the streams of a child that has exited are
    decoded, and the decoder's exception leaves [subprocess.run]. *)
Definition subprocess_run (c : command) (timeout : Z) (w : world)
  : run_result * world :=
  match programs w c with
  | Cannot_start message => (OtherException message, w)
  | Garbles after message =>
      if (after <=? timeout)%Z then
        (OtherException message,
         {| files := files w; clock := (clock w + after)%Z;
            programs := programs w; trace := trace w ++ [Spawned c] |})
      else
        (TimeoutExpired,
         {| files := files w; clock := (clock w + timeout)%Z;
            programs := programs w;
            trace := trace w ++ [Spawned c; Killed c] |})
  | Exits after stdout stderr =>
      if (after <=? timeout)%Z then
        (CompletedProcess stdout stderr,
         {| files := files w; clock := (clock w + after)%Z;
            programs := programs w; trace := trace w ++ [Spawned c] |})
      else
        (TimeoutExpired,
         {| files := files w; clock := (clock w + timeout)%Z;
            programs := programs w;
            trace := trace w ++ [Spawned c; Killed c] |})
  | Runs_on =>
      (TimeoutExpired,
       {| files := files w; clock := (clock w + timeout)%Z;
          programs := programs w;
          trace := trace w ++ [Spawned c; Killed c] |})
  end.

(** The thirty seconds of [timeout=30]. *)
Definition TIMEOUT_MS : Z := 30000.

Section Formats.

(** [timestamp.isoformat()], [timestamp.strftime('%Y-%m-%d-%H%M%S')] and
    [hashlib.md5(s.encode()).hexdigest()] are taken as given. *)
Variable isoformat : Z -> string.
Variable strftime : Z -> string.
Variable md5_hexdigest : string -> string.

(** [description or default] *)
Definition or_default (description : option string) (default : string) : string :=
  match description with
  | Some d => if d =? "" then default else d
  | None => default
  end.

Definition create_log_entry (code language : string)
  (description : option string) (w : world) : string * log_entry :=
  let timestamp := clock w in
  let hash_input := (isoformat timestamp ++ "-" ++ take 50 code)%string in
  let exec_id :=
    ("exec-" ++ strftime timestamp ++ "-"
     ++ take 8 (md5_hexdigest hash_input))%string in
  (exec_id,
   {| le_id := exec_id;
      le_timestamp := isoformat timestamp;
      le_type := language;
      le_description :=
        or_default description ("Execute " ++ language ++ " code")%string;
      le_code := code;
      le_status := "running";
      le_output := "";
      le_error := "";
      le_execution_time := 0 |}).

(** [f"{exec_id}.json"], the name the wrapper writes. *)
Definition log_file_name (exec_id : string) : string := exec_id ++ ".json".

Definition save_log (exec_id : string) (e : log_entry) (w : world) : world :=
  {| files :=
       write_file (log_file_name exec_id)
         {| mtime := clock w; readable := true; holds := Snapshot e |}
         (files w);
     clock := clock w;
     programs := programs w;
     trace := trace w ++ [Saved (log_file_name exec_id) e] |}.

(** The two calls of [subprocess.run] in [execute_code]. *)
Definition command_for (code language : string) : command :=
  if language =? "python" then Python3 code else Shell code.

(** [execute_code]: output, error, status and elapsed milliseconds. *)
Definition execute_code (code language : string) (w : world)
  : (string * string * string * Z) * world :=
  let start_time := clock w in
  match subprocess_run (command_for code language) TIMEOUT_MS w with
  | (CompletedProcess stdout stderr, w') =>
      ((stdout, stderr, "completed", (clock w' - start_time)%Z), w')
  | (TimeoutExpired, w') =>
      (("", "Execution timed out after 30 seconds", "timeout",
        (clock w' - start_time)%Z), w')
  | (OtherException message, w') =>
      (("", message, "error", (clock w' - start_time)%Z), w')
  end.

(** [language == 'auto'] picks the language from the text of the code. *)
Definition detect (code language : string) : string :=
  if language =? "auto" then
    if contains "import " code || contains "def " code || contains "print(" code
    then "python" else "shell"
  else language.

(** [wrap_execute], up to the second [save_log]: the entry saved last and
    the world after it.  (The text returned to the caller is built from
    the same values and is not part of the model.) *)
Definition wrap_execute (code language : string) (description : option string)
  (w : world) : log_entry * world :=
  let language := detect code language in
  let (exec_id, log_entry) := create_log_entry code language description w in
  let w1 := save_log exec_id log_entry w in
  let '((output, error, status, exec_time), w2) := execute_code code language w1 in
  let log_entry :=
    {| le_id := le_id log_entry;
       le_timestamp := le_timestamp log_entry;
       le_type := le_type log_entry;
       le_description := le_description log_entry;
       le_code := le_code log_entry;
       le_status := status;
       le_output := output;
       le_error := error;
       le_execution_time := exec_time |} in
  (log_entry, save_log exec_id log_entry w2).

End Formats.

End Wrapper.

(* ================================================================= *)
(** ** The specification's notions *)

(** The value a field is given by the last event of the file that sets
    it: the last parsed line that is an object with the key [k]. *)
Fixpoint last_set (k : string) (ls : list line) : option json :=
  match ls with
  | [] => None
  | l :: r =>
      match last_set k r with
      | Some v => Some v
      | None => match l with
                | Parsed (JObj kvs) => dict_get k kvs
                | _ => None
                end
      end
  end.

Definition or_else (o : option json) (default : json) : json :=
  match o with Some v => v | None => default end.

(** What one line sets for the key [k]. *)
Definition line_sets (k : string) (l : line) : option json :=
  match l with
  | Parsed (JObj kvs) => dict_get k kvs
  | _ => None
  end.

(** The value reported for [k] after reading a whole file: the value of
    the last event that sets it, the default when no event does or when
    the file cannot be opened. *)
Definition last_written (k : string) (default : json) (f : file) : json :=
  match read_lines f with
  | Ok ls => or_else (last_set k ls) default
  | Raise _ => default
  end.

(** [sub] starts at one of the first [n] positions of [s]. *)
Fixpoint occurs_before (sub s : string) (n : nat) : bool :=
  match n with
  | O => false
  | S m => prefix sub s
           || match s with
              | EmptyString => false
              | String _ r => occurs_before sub r m
              end
  end.

(** The timestamps found in a file, in file order. *)
Fixpoint timestamps_of (ls : list line) : list string :=
  match ls with
  | [] => []
  | Parsed (JObj kvs) :: r =>
      match dict_get "timestamp" kvs with
      | Some (JStr t) => t :: timestamps_of r
      | _ => timestamps_of r
      end
  | _ :: r => timestamps_of r
  end.

(** The earliest of them, as the specification words [createdAt]. *)
Fixpoint earliest (ts : list string) : option string :=
  match ts with
  | [] => None
  | t :: r => match earliest r with
              | Some m => if String.ltb m t then Some m else Some t
              | None => Some t
              end
  end.

Definition earliest_timestamp (ls : list line) : option string :=
  earliest (timestamps_of ls).

(** The key the latest-updates sort gives an event: its timestamp, the
    empty string when it has none. *)
Definition stamp (e : json) : string :=
  match e with
  | JObj kvs => match dict_get "timestamp" kvs with
                | Some (JStr t) => t
                | _ => ""
                end
  | _ => ""
  end.

(** The same key as the JSON value the sort compares, and the order of
    two such keys. *)
Definition stamp_key (e : json) : json := JStr (stamp e).

Definition key_ltb (a b : json) : bool :=
  match a, b with
  | JStr s, JStr t => String.ltb s t
  | _, _ => false
  end.

(** An event has no timestamp of its own. *)
Definition lacks_timestamp (e : json) : Prop :=
  match e with
  | JObj kvs => dict_get "timestamp" kvs = None
  | _ => True
  end.

(** An event is well stamped when it is an object whose timestamp, if
    any, is a string. *)
Definition well_stamped (e : json) : bool :=
  match e with
  | JObj kvs => match dict_get "timestamp" kvs with
                | Some (JStr _) => true
                | Some _ => false
                | None => true
                end
  | _ => false
  end.

(** A directory is tidy when every log file opens and holds well stamped
    events only. *)
Definition tidy_file (p : string * file) : bool :=
  readable (snd p) && forallb well_stamped (entries_of (lines_of (holds (snd p)))).

Definition tidy_store (d : store) : bool := forallb tidy_file (glob_exec d).

(** Descending orders on files and on events. *)
Definition newer_first (p q : string * file) : Prop := (mtime (snd q) <= mtime (snd p))%Z.

Definition name_desc (p q : string * file) : Prop := String.leb (fst q) (fst p) = true.

Definition stamp_desc (a b : json) : Prop := String.leb (stamp b) (stamp a) = true.

(** The fold of a file yields an id. *)
Definition has_id_fixed (p : string * file) : bool :=
  truthy (Fixed.execution_id (Fixed.scan_file (snd p))).

Definition has_id_enhanced (p : string * file) : bool :=
  truthy (Enhanced.execution_id (Enhanced.scan_file (snd p))).

(** The events a file contributes to the latest-updates view. *)
Definition tail_events (p : string * file) : list json :=
  tail_n 10 (entries_of (lines_of (holds (snd p)))).

(** The outcome of a command that is still running at the deadline. *)
Definition exceeds_deadline (b : Wrapper.behaviour) : Prop :=
  match b with
  | Wrapper.Exits after _ _ => (Wrapper.TIMEOUT_MS < after)%Z
  | Wrapper.Garbles after _ => (Wrapper.TIMEOUT_MS < after)%Z
  | Wrapper.Runs_on => True
  | Wrapper.Cannot_start _ => False
  end.

(** The bodies that report an error: an unknown endpoint, an execution
    that is not found, an exception caught by a handler. *)
Definition error_body (p : payload) : Prop :=
  p = unknown_endpoint \/ p = not_found \/ exists e, p = ErrorOf e.

(** A reply with status 200 and a JSON object as body, in which the key
    ["error"] is present exactly for the error bodies. *)
Definition plain_reply (r : response) : Prop :=
  resp_status r = 200%Z
  /\ resp_content_type r = "application/json"
  /\ is_object (resp_body r) = true
  /\ (has_error_key (resp_body r) = true <-> error_body (resp_body r)).

(** The execution asked for has no file. *)
Definition missing_at (d : store) (ep : endpoint) : Prop :=
  match ep with
  | GetExecution id => lookup (api_file_name id) d = None
  | _ => False
  end.

(** The file of the execution asked for is there and [open] raises. *)
Definition cannot_read (d : store) (id : string) (e : exn) : Prop :=
  exists f, lookup (api_file_name id) d = Some f /\ read_lines f = Raise e.

(** The statements under the [try] of [handle_latest_updates] and of
    [handle_all_entries] in the enhanced server, up to the entries that
    are written. *)
Definition latest_entries (d : store) : result (list json) :=
  let? sorted := Enhanced.by_mtime_desc (glob_exec d) in
  let? all_entries := Enhanced.collect_tails (head_n 10 sorted) in
  let? ordered := Enhanced.by_timestamp_desc all_entries in
  Ok (head_n 50 ordered).

Definition all_entries (d : store) : result (list json) :=
  let? sorted := Enhanced.by_mtime_desc (glob_exec d) in
  let? all_entries := Enhanced.collect_all (head_n 20 sorted) in
  Enhanced.by_timestamp_desc all_entries.

(** The handler an endpoint leads to raises [e] under its [try], in the
    base and the fixed server and in the enhanced one. *)
Definition base_caught_at (d : store) (ep : endpoint) (e : exn) : Prop :=
  match ep with
  | ListExecutions => Base.by_name_desc (glob_exec d) = Raise e
  | GetExecution id => cannot_read d id e
  | LatestUpdates =>
      exists latest_file,
        max_by (fun p => mtime (snd p)) (glob_exec d) = Some latest_file
        /\ read_lines (snd latest_file) = Raise e
  | _ => False
  end.

Definition enhanced_caught_at (d : store) (ep : endpoint) (e : exn) : Prop :=
  match ep with
  | ListExecutions => Enhanced.by_mtime_desc (glob_exec d) = Raise e
  | GetExecution id => cannot_read d id e
  | LatestUpdates => glob_exec d <> [] /\ latest_entries d = Raise e
  | AllEntries => all_entries d = Raise e
  | _ => False
  end.

(** The three error conditions of a request and the body of its reply:
    each kind of error body is written under its condition and under no
    other. *)
Definition marks_errors (caught_at : store -> endpoint -> exn -> Prop)
  (d : store) (ep : endpoint) (body : payload) : Prop :=
  (body = unknown_endpoint <-> ep = Unknown)
  /\ (body = not_found <-> missing_at d ep)
  /\ (forall e, body = ErrorOf e <-> caught_at d ep e)
  /\ (has_error_key body = true
      <-> ep = Unknown \/ missing_at d ep \/ exists e, caught_at d ep e).

(** The well-formed answer of [getById] for a file without events. *)
Definition no_entries (execution_id : string) : payload :=
  Json (JObj [("execution_id", JStr execution_id);
              ("entries", JArr []);
              ("count", JNum 0)]).

(* ================================================================= *)
(** ** Sample data *)

Module Sample.

Definition started : json :=
  JObj [("execution_id", JStr "a1");
        ("timestamp", JStr "2025-07-07T10:20:00");
        ("language", JStr "python");
        ("status", JStr "running")].

Definition finished : json :=
  JObj [("status", JStr "completed");
        ("timestamp", JStr "2025-07-07T10:20:05")].

Definition events_file (t : Z) (ls : list line) : file :=
  {| mtime := t; readable := true; holds := Events ls |}.

(** One execution, started and then completed. *)
Definition two_events : file := events_file 100 [Parsed started; Parsed finished].

Definition one_run : store := [("exec_a1.json", two_events)].

(** The same two lines in the other order. *)
Definition two_events_swapped : file :=
  events_file 100 [Parsed finished; Parsed started].

(** Two executions; the one with the smaller name was modified last. *)
Definition event_a : json :=
  JObj [("execution_id", JStr "a"); ("timestamp", JStr "2025-07-07T10:00:00")].

Definition event_b : json :=
  JObj [("execution_id", JStr "b"); ("timestamp", JStr "2025-07-07T09:00:00")].

Definition two_runs : store :=
  [("exec_a.json", events_file 20 [Parsed event_a]);
   ("exec_b.json", events_file 10 [Parsed event_b])].

(** A file that exists and holds no parseable line. *)
Definition garbled : store := [("exec_x.json", events_file 5 [Malformed; Blank])].

(** A file that exists and cannot be opened. *)
Definition locked : store :=
  [("exec_l.json", {| mtime := 1; readable := false; holds := Events [] |})].

(** Two output events in one file. *)
Definition output_event (text : string) : json :=
  JObj [("type", JStr "output"); ("output", JStr text)].

Definition said_hello_then_nothing : list line :=
  [Parsed (output_event "hello"); Parsed (output_event "")].

Definition failed_then_fine : list line :=
  [Parsed (output_event ("out" ++ Enhanced.ERRORS_MARKER ++ "boom"));
   Parsed (output_event "fine")].

(** The formats the wrapper is run with in the examples. *)
Definition isoformat (t : Z) : string := "2025-07-07T10:20:00.000000".

Definition strftime (t : Z) : string := "2025-07-07-102000".

Definition md5_hexdigest (s : string) : string := "0123abcd4567ef890123abcd4567ef89".

Definition sleeper : Wrapper.world :=
  {| Wrapper.files := []; Wrapper.clock := 0;
     Wrapper.programs := fun _ => Wrapper.Runs_on;
     Wrapper.trace := [] |}.

Definition greeter : Wrapper.world :=
  {| Wrapper.files := []; Wrapper.clock := 0;
     Wrapper.programs := fun _ => Wrapper.Exits 12 "hi" "";
     Wrapper.trace := [] |}.

End Sample.

(* ================================================================= *)
(** ** [log_recent_executions.py] *)

Module Logger.

Section Formats.

(** The same three formats as in the wrapper, taken as given. *)
Variable isoformat : Z -> string.
Variable strftime : Z -> string.
Variable md5_hexdigest : string -> string.

(** [log_execution]: the id it returns and the world after the file is
    written.  The language is detected by the statements the wrapper
    has, and the file is written by the statements of [save_log]; the
    three [print] calls are left out. *)
Definition log_execution (description code output language error : string)
  (exec_time_ms : Z) (w : Wrapper.world) : string * Wrapper.world :=
  let language := Wrapper.detect code language in
  let timestamp := Wrapper.clock w in
  let exec_id :=
    ("exec-" ++ strftime timestamp ++ "-" ++ take 8 (md5_hexdigest code))%string in
  let log_entry :=
    {| le_id := exec_id;
       le_timestamp := isoformat timestamp;
       le_type := language;
       le_description := description;
       le_code := code;
       le_status := if error =? "" then "completed" else "error";
       le_output := output;
       le_error := error;
       le_execution_time := exec_time_ms |} in
  (exec_id, Wrapper.save_log exec_id log_entry w).

End Formats.

End Logger.

(* ================================================================= *)
(** ** Further notions *)

(** A line that is an event: it parses to an object. *)
Definition is_event (l : line) : bool :=
  match l with
  | Parsed (JObj _) => true
  | _ => false
  end.

(** A parsed value that is an object. *)
Definition is_dict (e : json) : bool :=
  match e with
  | JObj _ => true
  | _ => false
  end.

(** The character [c] does not occur in [s]. *)
Fixpoint free_of (c : ascii) (s : string) : bool :=
  match s with
  | EmptyString => true
  | String a r => negb (Ascii.eqb a c) && free_of c r
  end.

(** A preview holds at most 200 characters, or at most 200 elements
    when the sliced value was a list. *)
Definition within_200 (v : json) : Prop :=
  match v with
  | JStr s => String.length s <= 200
  | JArr l => length l <= 200
  | _ => False
  end.

Definition short_previews (s : Enhanced.locals) : Prop :=
  within_200 (Enhanced.code_preview s)
  /\ within_200 (Enhanced.output_preview s)
  /\ within_200 (Enhanced.error_preview s).

(** A computation preserves a property of the locals when every path
    through it, raising or not, leaves the property true. *)
Definition preserves {S A : Type} (P : S -> Prop) (m : Try S A) : Prop :=
  forall s, P s -> P (snd (m s)).

(** A field that [v.strip()] can be called on, when it is there. *)
Definition strippable (o : option json) : bool :=
  match o with
  | None => true
  | Some (JStr _) => true
  | Some _ => false
  end.

Definition stripped (o : option json) : option json :=
  match o with
  | Some (JStr s) => Some (JStr (strip s))
  | other => other
  end.

(** An event without the two fields [handle_get_execution] strips. *)
Definition bare_event (e : json) : bool :=
  match e with
  | JObj kvs => negb (dict_has "code" kvs) && negb (dict_has "output" kvs)
  | _ => false
  end.

(** A value no slice can be taken of. *)
Definition unsliceable (v : json) : Prop :=
  match v with
  | JStr _ | JArr _ => False
  | _ => True
  end.

(** All the events a file contributes to the all-entries view. *)
Definition all_events (p : string * file) : list json :=
  entries_of (lines_of (holds (snd p))).


(** Two directories the servers cannot tell apart: the same files match
    the pattern, in the same order, and every name a request can ask for
    leads to the same file. *)
Definition same_for_api (d d' : store) : Prop :=
  glob_exec d' = glob_exec d
  /\ forall id, lookup (api_file_name id) d' = lookup (api_file_name id) d.

(** The entries and the count of a body, when it has the shape the
    entry views answer with. *)
Definition entries_body (es : list json) (rest : list (string * json)) : payload :=
  Json (JObj (("entries", JArr es) :: ("count", count_of es) :: rest)).

(** More sample data. *)
Module Cases.

Definition code_event (code message : string) : json :=
  JObj [("type", JStr "code"); ("code", JStr code); ("message", JStr message)].

Definition padded : json :=
  JObj [("type", JStr "code"); ("code", JStr "  ls -la  "); ("output", JStr " ok ")].

Definition numbered : json :=
  JObj [("execution_id", JStr "n1"); ("type", JStr "code"); ("code", JNum 7);
        ("status", JStr "completed")].

Definition noisy : list line :=
  [Blank; Parsed Sample.started; Malformed; Parsed (JStr "status");
   Parsed Sample.finished; Blank].

Definition stamped_file : store :=
  [("exec_n1.json", Sample.events_file 7 [Parsed numbered; Parsed padded])].

(** A world in which no command can be started. *)
Definition broken : Wrapper.world :=
  {| Wrapper.files := []; Wrapper.clock := 0;
     Wrapper.programs := fun _ => Wrapper.Cannot_start "No such file or directory";
     Wrapper.trace := [] |}.

(** A log file that cannot be opened beside one that can, and a log file
    with a line that parses to a number. *)
Definition half_locked : store :=
  [("exec_a.json", Sample.events_file 20 [Parsed Sample.event_a]);
   ("exec_l.json", {| mtime := 1; readable := false; holds := Events [] |})].

Definition with_number : store :=
  [("exec_a.json", Sample.events_file 20 [Parsed Sample.event_a; Parsed (JNum 3)])].

(** A path parser for the examples: the fragment and the query of a
    request target are cut off. *)
Definition before (sep s : string) : string :=
  match find sep s with
  | Some i => take i s
  | None => s
  end.

Definition url_path (target : string) : option string :=
  Some (before "?" (before "#" target)).



End Cases.

(* ================================================================= *)
(** * Statements *)

(** ** Order on strings *)

Lemma ascii_compare_N (a b : ascii) :
  Ascii.compare a b = N.compare (N_of_ascii a) (N_of_ascii b).
Proof. reflexivity. Qed.

Lemma string_compare_trans_le (a b c : string) :
  String.compare a b <> Gt -> String.compare b c <> Gt -> String.compare a c <> Gt.
Proof.
  revert b c.
  induction a as [|x a IH]; intros [|y b] [|z c]; simpl; try congruence.
  rewrite !ascii_compare_N.
  destruct (N.compare_spec (N_of_ascii x) (N_of_ascii y)) as [Exy|Lxy|Gxy];
    destruct (N.compare_spec (N_of_ascii y) (N_of_ascii z)) as [Eyz|Lyz|Gyz];
    try congruence; intros Hab Hbc.
  - rewrite Exy, Eyz, N.compare_refl. eauto.
  - rewrite Exy. apply N.compare_lt_iff in Lyz. rewrite Lyz. discriminate.
  - rewrite <- Eyz. apply N.compare_lt_iff in Lxy. rewrite Lxy. discriminate.
  - assert (H : (N_of_ascii x < N_of_ascii z)%N) by lia.
    apply N.compare_lt_iff in H. rewrite H. discriminate.
Qed.

Lemma string_ltb_false_leb (a b : string) :
  String.ltb a b = false <-> String.leb b a = true.
Proof.
  unfold String.ltb, String.leb.
  rewrite (String.compare_antisym b a).
  destruct (String.compare a b); simpl; split; congruence.
Qed.

Lemma string_leb_trans (a b c : string) :
  String.leb a b = true -> String.leb b c = true -> String.leb a c = true.
Proof.
  unfold String.leb. intros Hab Hbc.
  assert (H : String.compare a c <> Gt).
  { apply (string_compare_trans_le a b c).
    - destruct (String.compare a b); congruence.
    - destruct (String.compare b c); congruence. }
  destruct (String.compare a c); congruence.
Qed.

Lemma string_ltb_asym (a b : string) :
  String.ltb a b = true -> String.ltb b a = false.
Proof.
  unfold String.ltb. rewrite (String.compare_antisym b a).
  destruct (String.compare a b); simpl; congruence.
Qed.

Lemma string_leb_empty (s : string) : String.leb s "" = true -> s = "".
Proof. destruct s; [reflexivity | discriminate]. Qed.

(** ** The stable descending sort *)

Lemma StronglySorted_weaken {A : Type} (R Q : A -> A -> Prop) (l : list A) :
  (forall a b, R a b -> Q a b) -> StronglySorted R l -> StronglySorted Q l.
Proof.
  intros HRQ HS. induction HS as [|a l HS IH Hall]; constructor; auto.
  eapply Forall_impl; [|exact Hall]. auto.
Qed.

Lemma in_firstn {A : Type} (x : A) (n : nat) (l : list A) :
  In x (firstn n l) -> In x l.
Proof.
  intros H. rewrite <- (firstn_skipn n l). apply in_or_app. now left.
Qed.

Lemma StronglySorted_firstn {A : Type} (R : A -> A -> Prop) (n : nat) (l : list A) :
  StronglySorted R l -> StronglySorted R (firstn n l).
Proof.
  intros HS. revert n.
  induction HS as [|a l HS IH Hall]; intros [|n]; simpl; try constructor; auto.
  rewrite Forall_forall in *. intros x Hx. apply Hall.
  eapply in_firstn; eauto.
Qed.

Lemma StronglySorted_suffix {A : Type} (R : A -> A -> Prop) (l1 l2 : list A) :
  StronglySorted R (l1 ++ l2) -> StronglySorted R l2.
Proof.
  induction l1 as [|a l1 IH]; simpl; intros HS; [exact HS|].
  apply IH. now inversion HS.
Qed.

Lemma StronglySorted_filter {A : Type} (R : A -> A -> Prop) (f : A -> bool) (l : list A) :
  StronglySorted R l -> StronglySorted R (filter f l).
Proof.
  intros HS. induction HS as [|a l HS IH Hall]; simpl; [constructor|].
  destruct (f a); auto. constructor; auto.
  rewrite Forall_forall in *. intros x Hx. apply filter_In in Hx. apply Hall, Hx.
Qed.

Section SortFacts.

Context {A K : Type}.
Variable lt : K -> K -> result bool.
Variable key : A -> result K.
Variable good : A -> Prop.
Variable kp : A -> K.
Variable ltb : K -> K -> bool.

Let before (x y : A) : Prop := ltb (kp x) (kp y) = false.
Let tag (x : A) : K * A := (kp x, x).

Hypothesis key_good : forall x, good x -> key x = Ok (kp x).
Hypothesis lt_good :
  forall x y, good x -> good y -> lt (kp x) (kp y) = Ok (ltb (kp x) (kp y)).
Hypothesis before_trans : forall x y z, before x y -> before y z -> before x z.
Hypothesis before_asym : forall x y, ltb (kp x) (kp y) = true -> before y x.

Lemma insert_rev_sorted (x : A) (l : list A) :
  good x -> Forall good l -> StronglySorted before l ->
  exists l', insert_rev lt (tag x) (map tag l) = Ok (map tag l')
             /\ Permutation l' (x :: l) /\ StronglySorted before l'.
Proof.
  intros Hx Hl HS. induction HS as [|y l HS IH Hall].
  - exists [x]. simpl. repeat split; auto. constructor; constructor.
  - inversion Hl as [|? ? Hy Hl']; subst.
    simpl. rewrite (lt_good x y Hx Hy). simpl.
    destruct (ltb (kp x) (kp y)) eqn:E.
    + destruct (IH Hl') as (l' & Heq & Hperm & Hsort).
      rewrite Heq. simpl. exists (y :: l'). repeat split.
      * rewrite Hperm. apply perm_swap.
      * constructor; auto.
        rewrite Forall_forall in *. intros z Hz.
        apply (Permutation_in _ Hperm) in Hz. destruct Hz as [<-|Hz]; auto.
    + exists (x :: y :: l). repeat split; auto.
      constructor; [constructor; auto|].
      constructor; auto.
      rewrite Forall_forall in *. intros z Hz.
      apply before_trans with y; auto.
Qed.

Lemma sort_keyed_sorted (l : list A) :
  Forall good l ->
  exists l', sort_keyed lt (map tag l) = Ok (map tag l')
             /\ Permutation l' l /\ StronglySorted before l'.
Proof.
  induction l as [|x l IH]; intros Hl.
  - exists []. repeat split; auto. constructor.
  - inversion Hl as [|? ? Hx Hl']; subst.
    destruct (IH Hl') as (s & Heq & Hperm & Hsort).
    simpl. rewrite Heq. simpl.
    assert (Hs : Forall good s).
    { rewrite Forall_forall in *. intros z Hz. apply Hl'.
      eapply Permutation_in; eauto. }
    destruct (insert_rev_sorted x s Hx Hs Hsort) as (l' & Heq' & Hperm' & Hsort').
    exists l'. repeat split; auto.
    rewrite Hperm'. constructor. exact Hperm.
Qed.

Lemma rmap_key_good (l : list A) :
  Forall good l -> rmap key l = Ok (map kp l).
Proof.
  induction 1 as [|x l Hx Hl IH]; simpl; [reflexivity|].
  rewrite (key_good x Hx). simpl. rewrite IH. reflexivity.
Qed.

Lemma combine_map_tag (l : list A) : combine (map kp l) l = map tag l.
Proof. induction l as [|x l IH]; simpl; [reflexivity|]. now rewrite IH. Qed.

Lemma map_snd_tag (l : list A) : map snd (map tag l) = l.
Proof. induction l as [|x l IH]; simpl; [reflexivity|]. now rewrite IH. Qed.

Lemma sort_reverse_sorted (l : list A) :
  Forall good l ->
  exists l', sort_reverse lt key l = Ok l'
             /\ Permutation l' l /\ StronglySorted before l'.
Proof.
  intros Hl. unfold sort_reverse.
  rewrite (rmap_key_good l Hl). simpl. rewrite combine_map_tag.
  destruct (sort_keyed_sorted l Hl) as (l' & Heq & Hperm & Hsort).
  rewrite Heq. simpl. rewrite map_snd_tag. eauto.
Qed.

End SortFacts.

(** ** The three orders the servers sort by *)

Lemma by_mtime_desc_sorted (l : list (string * file)) :
  exists l', Enhanced.by_mtime_desc l = Ok l'
             /\ Permutation l' l /\ StronglySorted newer_first l'.
Proof.
  destruct (sort_reverse_sorted
              (fun a b => Ok (a <? b)%Z) (fun p : string * file => Ok (mtime (snd p)))
              (fun _ => True) (fun p => mtime (snd p)) Z.ltb) with (l := l)
    as (l' & Heq & Hperm & Hsort); auto.
  - intros x y z Hxy Hyz. apply Z.ltb_ge in Hxy, Hyz. apply Z.ltb_ge. lia.
  - intros x y Hxy. apply Z.ltb_lt in Hxy. apply Z.ltb_ge. lia.
  - apply Forall_forall. auto.
  - exists l'. repeat split; auto.
    eapply StronglySorted_weaken; [|exact Hsort].
    intros a b H. apply Z.ltb_ge in H. exact H.
Qed.

Lemma by_name_desc_sorted (l : list (string * file)) :
  exists l', Base.by_name_desc l = Ok l'
             /\ Permutation l' l /\ StronglySorted name_desc l'.
Proof.
  destruct (sort_reverse_sorted
              (fun a b => Ok (String.ltb a b)) (fun p : string * file => Ok (fst p))
              (fun _ => True) (fun p => fst p) String.ltb) with (l := l)
    as (l' & Heq & Hperm & Hsort); auto.
  - intros x y z Hxy Hyz. apply string_ltb_false_leb in Hxy, Hyz.
    apply string_ltb_false_leb. eapply string_leb_trans; eauto.
  - intros x y Hxy. now apply string_ltb_asym.
  - apply Forall_forall. auto.
  - exists l'. repeat split; auto.
    eapply StronglySorted_weaken; [|exact Hsort].
    intros a b H. apply string_ltb_false_leb in H. exact H.
Qed.

Lemma by_timestamp_desc_sorted (l : list json) :
  forallb well_stamped l = true ->
  exists l', Enhanced.by_timestamp_desc l = Ok l'
             /\ Permutation l' l /\ StronglySorted stamp_desc l'.
Proof.
  intros Hl.
  destruct (sort_reverse_sorted
              py_lt (fun x => py_get x "timestamp" (JStr ""))
              (fun e => well_stamped e = true) stamp_key key_ltb) with (l := l)
    as (l' & Heq & Hperm & Hsort); auto.
  - intros [| | | |?|kvs] H; simpl in H; try discriminate.
    unfold stamp_key, stamp. simpl.
    destruct (dict_get "timestamp" kvs) as [[| | | | |]|]; try discriminate; reflexivity.
  - intros x y z Hxy Hyz. simpl in *. apply string_ltb_false_leb in Hxy, Hyz.
    apply string_ltb_false_leb. eapply string_leb_trans; eauto.
  - intros x y Hxy. simpl in *. now apply string_ltb_asym.
  - apply Forall_forall. rewrite forallb_forall in Hl. exact Hl.
  - exists l'. repeat split; auto.
    eapply StronglySorted_weaken; [|exact Hsort].
    intros a b H. simpl in H. apply string_ltb_false_leb in H. exact H.
Qed.

(** ** Dispatch *)

Lemma base_route_never_latest (path : string) : Base.route path <> LatestUpdates.
Proof.
  unfold Base.route.
  destruct (path =? "/"); [discriminate|].
  destruct (path =? "/api/brain/executions"); [discriminate|].
  destruct (startswith path "/api/brain/executions/") eqn:Hprefix; [discriminate|].
  destruct (path =? "/api/brain/executions/latest") eqn:Hlatest.
  - apply String.eqb_eq in Hlatest. subst path. discriminate Hprefix.
  - destruct (path =? "/health"); discriminate.
Qed.

Lemma fixed_route_is_base_route (path : string) : Fixed.route path = Base.route path.
Proof. reflexivity. Qed.

(** C9.  In the base and the fixed server the path
    [/api/brain/executions/latest] is answered by [handle_get_execution]
    with the id ["latest"], because the prefix branch comes first; no
    path at all reaches the branch of [handle_latest_updates]. *)
Theorem latest_path_is_shadowed :
  Base.route "/api/brain/executions/latest" = GetExecution "latest"
  /\ Fixed.route "/api/brain/executions/latest" = GetExecution "latest"
  /\ (forall d, Base.do_GET d "/api/brain/executions/latest"
                = reply (Base.handle_get_execution d "latest"))
  /\ (forall d, Fixed.do_GET d "/api/brain/executions/latest"
                = reply (Fixed.handle_get_execution d "latest"))
  /\ (forall path, Base.route path <> LatestUpdates)
  /\ (forall path, Fixed.route path <> LatestUpdates).
Proof.
  repeat split; try reflexivity.
  - exact base_route_never_latest.
  - intros path. rewrite fixed_route_is_base_route. apply base_route_never_latest.
Qed.

(** ** Replies *)

Ltac open_result :=
  match goal with
  | |- context [match ?r with Ok _ => _ | Raise _ => _ end] => destruct r
  | |- context [match ?o with Some _ => _ | None => _ end] => destruct o
  end.

Ltac settle_body :=
  unfold plain_reply, reply, error_body, has_error_key, not_found, unknown_endpoint;
  simpl;
  repeat split; try reflexivity; try discriminate;
  try (intros _; first [ left; reflexivity
                       | right; left; reflexivity
                       | right; right; eexists; reflexivity ]);
  try (intros [H|[H|[e' H]]]; discriminate H).

Lemma base_get_plain (d : store) (id : string) :
  plain_reply (reply (Base.handle_get_execution d id)).
Proof. unfold Base.handle_get_execution. repeat open_result; settle_body. Qed.

Lemma base_list_plain (d : store) :
  plain_reply (reply (Base.handle_list_executions d)).
Proof. unfold Base.handle_list_executions. repeat open_result; settle_body. Qed.

Lemma base_latest_plain (d : store) :
  plain_reply (reply (Base.handle_latest_updates d)).
Proof. unfold Base.handle_latest_updates. repeat open_result; settle_body. Qed.

Lemma fixed_list_plain (d : store) :
  plain_reply (reply (Fixed.handle_list_executions d)).
Proof. unfold Fixed.handle_list_executions. repeat open_result; settle_body. Qed.

Lemma enhanced_list_plain (d : store) :
  plain_reply (reply (Enhanced.handle_list_executions d)).
Proof. unfold Enhanced.handle_list_executions. repeat open_result; settle_body. Qed.

Lemma enhanced_get_plain (d : store) (id : string) :
  plain_reply (reply (Enhanced.handle_get_execution d id)).
Proof. unfold Enhanced.handle_get_execution. repeat open_result; settle_body. Qed.

Lemma enhanced_latest_plain (d : store) :
  plain_reply (reply (Enhanced.handle_latest_updates d)).
Proof.
  unfold Enhanced.handle_latest_updates.
  destruct (glob_exec d); [settle_body|].
  open_result; settle_body.
Qed.

Lemma enhanced_all_plain (d : store) :
  plain_reply (reply (Enhanced.handle_all_entries d)).
Proof. unfold Enhanced.handle_all_entries. open_result; settle_body. Qed.

(** The three kinds of error body do occur, each under status 200. *)
Example error_replies :
  Base.do_GET [] "/nowhere" = reply unknown_endpoint
  /\ Fixed.do_GET [] "/api/brain/executions/a1" = reply not_found
  /\ Enhanced.do_GET Sample.locked "/api/brain/executions/l" = reply (ErrorOf OSError)
  /\ Enhanced.do_GET Sample.locked "/api/brain/executions/latest"
     = reply (ErrorOf OSError)
  /\ resp_status (reply (ErrorOf OSError)) = 200%Z.
Proof. repeat split; reflexivity. Qed.

Lemma base_route_never_all (path : string) : Base.route path <> AllEntries.
Proof.
  unfold Base.route.
  repeat match goal with |- context [if ?b then _ else _] => destruct b end;
    discriminate.
Qed.

Lemma marks_intro (caught_at : store -> endpoint -> exn -> Prop)
  (d : store) (ep : endpoint) (body : payload) :
  plain_reply (reply body) ->
  (body = unknown_endpoint <-> ep = Unknown) ->
  (body = not_found <-> missing_at d ep) ->
  (forall e, body = ErrorOf e <-> caught_at d ep e) ->
  marks_errors caught_at d ep body.
Proof.
  intros (_ & _ & _ & Hkey) Hu Hn He. simpl in Hkey.
  unfold marks_errors. repeat split; try apply Hu; try apply Hn; try apply He.
  - intros H. apply Hkey in H. destruct H as [H|[H|[e H]]].
    + left. now apply Hu.
    + right. left. now apply Hn.
    + right. right. exists e. now apply He.
  - intros H. apply Hkey. destruct H as [H|[H|[e H]]].
    + left. now apply Hu.
    + right. left. now apply Hn.
    + right. right. exists e. now apply He.
Qed.

Lemma base_get_marks (d : store) (id : string) :
  marks_errors base_caught_at d (GetExecution id) (Base.handle_get_execution d id).
Proof.
  apply marks_intro; [apply base_get_plain| | |];
    unfold Base.handle_get_execution, base_caught_at, missing_at, cannot_read;
    destruct (lookup (api_file_name id) d) as [f|] eqn:Hf;
    try destruct (read_lines f) as [ls|e0] eqn:Hr;
    try (split; intros; (discriminate || congruence)).
  - intros e. split; [discriminate|]. intros (f' & Hf' & Hr'). congruence.
  - intros e. split.
    + intros H. exists f. split; congruence.
    + intros (f' & Hf' & Hr'). congruence.
  - intros e. split; [discriminate|]. intros (f' & Hf' & _). discriminate.
Qed.

Lemma enhanced_get_marks (d : store) (id : string) :
  marks_errors enhanced_caught_at d (GetExecution id)
    (Enhanced.handle_get_execution d id).
Proof.
  apply marks_intro; [apply enhanced_get_plain| | |];
    unfold Enhanced.handle_get_execution, enhanced_caught_at, missing_at, cannot_read;
    destruct (lookup (api_file_name id) d) as [f|] eqn:Hf;
    try destruct (read_lines f) as [ls|e0] eqn:Hr;
    try (split; intros; (discriminate || congruence)).
  - intros e. split; [discriminate|]. intros (f' & Hf' & Hr'). congruence.
  - intros e. split.
    + intros H. exists f. split; congruence.
    + intros (f' & Hf' & Hr'). congruence.
  - intros e. split; [discriminate|]. intros (f' & Hf' & _). discriminate.
Qed.

Lemma base_list_marks (d : store) :
  marks_errors base_caught_at d ListExecutions (Base.handle_list_executions d).
Proof.
  apply marks_intro; [apply base_list_plain| | |];
    unfold Base.handle_list_executions, base_caught_at, missing_at;
    destruct (Base.by_name_desc (glob_exec d)) as [l|e0];
    try (split; intros; (discriminate || contradiction || congruence));
    intros e; split; intros; (discriminate || congruence).
Qed.

Lemma fixed_list_marks (d : store) :
  marks_errors base_caught_at d ListExecutions (Fixed.handle_list_executions d).
Proof.
  apply marks_intro; [apply fixed_list_plain| | |];
    unfold Fixed.handle_list_executions, base_caught_at, missing_at;
    destruct (Base.by_name_desc (glob_exec d)) as [l|e0];
    try (split; intros; (discriminate || contradiction || congruence));
    intros e; split; intros; (discriminate || congruence).
Qed.

Lemma enhanced_list_marks (d : store) :
  marks_errors enhanced_caught_at d ListExecutions
    (Enhanced.handle_list_executions d).
Proof.
  apply marks_intro; [apply enhanced_list_plain| | |];
    unfold Enhanced.handle_list_executions, enhanced_caught_at, missing_at;
    destruct (Enhanced.by_mtime_desc (glob_exec d)) as [l|e0];
    try (split; intros; (discriminate || contradiction || congruence));
    intros e; split; intros; (discriminate || congruence).
Qed.

Lemma base_latest_marks (d : store) :
  marks_errors base_caught_at d LatestUpdates (Base.handle_latest_updates d).
Proof.
  apply marks_intro; [apply base_latest_plain| | |];
    unfold Base.handle_latest_updates, base_caught_at, missing_at;
    destruct (max_by _ (glob_exec d)) as [latest|] eqn:Hm;
    try destruct (read_lines (snd latest)) as [ls|e0] eqn:Hr;
    try (split; intros; (discriminate || contradiction || congruence)).
  - intros e. split; [discriminate|]. intros (l' & Hl' & Hr'). congruence.
  - intros e. split.
    + intros H. exists latest. split; congruence.
    + intros (l' & Hl' & Hr'). congruence.
  - intros e. split; [discriminate|]. intros (l' & Hl' & _). discriminate.
Qed.

Lemma enhanced_latest_marks (d : store) :
  marks_errors enhanced_caught_at d LatestUpdates
    (Enhanced.handle_latest_updates d).
Proof.
  apply marks_intro; [apply enhanced_latest_plain| | |];
    unfold Enhanced.handle_latest_updates, enhanced_caught_at, missing_at,
      latest_entries;
    destruct (glob_exec d) as [|p l] eqn:Hg.
  all: try destruct (let? sorted := Enhanced.by_mtime_desc (p :: l) in _)
         as [es|e0].
  all: try (split; intros; (discriminate || contradiction || congruence)).
  - intros e. split; [discriminate|]. intros [H _]. congruence.
  - intros e. split; [discriminate|]. intros [_ H]. discriminate.
  - intros e. split.
    + intros H. split; [discriminate|congruence].
    + intros [_ H]. congruence.
Qed.

Lemma enhanced_all_marks (d : store) :
  marks_errors enhanced_caught_at d AllEntries (Enhanced.handle_all_entries d).
Proof.
  apply marks_intro; [apply enhanced_all_plain| | |];
    unfold Enhanced.handle_all_entries, enhanced_caught_at, missing_at, all_entries;
    destruct (let? sorted := Enhanced.by_mtime_desc (glob_exec d) in _) as [es|e0];
    try (split; intros; (discriminate || contradiction || congruence));
    intros e; split; intros; (discriminate || congruence).
Qed.

Ltac fixed_body :=
  apply marks_intro; [settle_body| | |];
  unfold missing_at, base_caught_at, enhanced_caught_at;
  try (split; intros; (discriminate || contradiction || congruence));
  try (intros e; split; intros; (discriminate || contradiction)).

Lemma base_serve_marks (d : store) (ep : endpoint) :
  ep <> AllEntries -> marks_errors base_caught_at d ep (Base.serve d ep).
Proof.
  intros Hall. destruct ep; simpl;
    auto using base_get_marks, base_list_marks, base_latest_marks;
    try congruence; fixed_body.
Qed.

Lemma fixed_serve_marks (d : store) (ep : endpoint) :
  ep <> AllEntries -> marks_errors base_caught_at d ep (Fixed.serve d ep).
Proof.
  intros Hall. destruct ep; simpl;
    auto using base_get_marks, fixed_list_marks, base_latest_marks;
    try congruence; fixed_body.
Qed.

Lemma enhanced_serve_marks (d : store) (ep : endpoint) :
  marks_errors enhanced_caught_at d ep (Enhanced.serve d ep).
Proof.
  destruct ep; simpl;
    auto using enhanced_get_marks, enhanced_list_marks, enhanced_latest_marks,
      enhanced_all_marks;
    fixed_body.
Qed.

(** C8.  Every reply of [do_GET], in each of the three servers, has
    status 200 and a JSON object as body, and so has every response to
    a request target that [urlparse] accepts.  The error conditions are
    told by the body and by nothing in the status: the body is the
    "Unknown endpoint" object exactly when the path leads to no
    endpoint, the "Execution not found" object exactly when the
    execution asked for has no file, and the object of a caught
    exception exactly when the handler raises under its [try]; the key
    ["error"] is present in these three cases and in no other. *)
Theorem every_reply_is_200 (d : store) :
  (forall path,
     plain_reply (Base.do_GET d path)
     /\ plain_reply (Fixed.do_GET d path)
     /\ plain_reply (Enhanced.do_GET d path))
  /\ (forall path,
        marks_errors base_caught_at d (Base.route path)
          (resp_body (Base.do_GET d path))
        /\ marks_errors base_caught_at d (Fixed.route path)
             (resp_body (Fixed.do_GET d path))
        /\ marks_errors enhanced_caught_at d (Enhanced.route path)
             (resp_body (Enhanced.do_GET d path)))
  /\ (forall url_path target r,
        Request.base url_path d target = Some r
        \/ Request.fixed url_path d target = Some r
        \/ Request.enhanced url_path d target = Some r ->
        plain_reply r).
Proof.
  assert (Hplain : forall path,
            plain_reply (Base.do_GET d path)
            /\ plain_reply (Fixed.do_GET d path)
            /\ plain_reply (Enhanced.do_GET d path)).
  { intros path. split; [|split].
    - unfold Base.do_GET. destruct (Base.route path); simpl;
        auto using base_get_plain, base_list_plain, base_latest_plain;
        settle_body.
    - unfold Fixed.do_GET. destruct (Fixed.route path); simpl;
        auto using base_get_plain, fixed_list_plain, base_latest_plain;
        settle_body.
    - unfold Enhanced.do_GET. destruct (Enhanced.route path); simpl;
        auto using enhanced_get_plain, enhanced_list_plain,
          enhanced_latest_plain, enhanced_all_plain;
        settle_body. }
  split; [exact Hplain|]. split.
  - intros path. split; [|split].
    + apply base_serve_marks, base_route_never_all.
    + apply fixed_serve_marks. rewrite fixed_route_is_base_route.
      apply base_route_never_all.
    + apply enhanced_serve_marks.
  - intros url_path target r.
    unfold Request.base, Request.fixed, Request.enhanced.
    destruct (url_path target) as [path|]; simpl.
    + destruct (Hplain path) as (Hb & Hf & He).
      intros [H|[H|H]]; injection H as <-; assumption.
    + intros [H|[H|H]]; discriminate H.
Qed.

Lemma every_reply_is_200_witness :
  plain_reply (reply unknown_endpoint).
Proof.
  apply (proj2 (proj2 (every_reply_is_200 []))
           Cases.url_path "/nowhere?verbose=1" (reply unknown_endpoint)).
  left. reflexivity.
Defined.

(** ** Looking an execution up *)

Lemma fixed_not_found_iff (d : store) (id : string) :
  Fixed.handle_get_execution d id = not_found
  <-> lookup (api_file_name id) d = None.
Proof.
  unfold Fixed.handle_get_execution, Base.handle_get_execution.
  destruct (lookup (api_file_name id) d) as [f|].
  - destruct (read_lines f); split; discriminate.
  - split; reflexivity.
Qed.

Lemma enhanced_not_found_iff (d : store) (id : string) :
  Enhanced.handle_get_execution d id = not_found
  <-> lookup (api_file_name id) d = None.
Proof.
  unfold Enhanced.handle_get_execution.
  destruct (lookup (api_file_name id) d) as [f|].
  - destruct (read_lines f); split; discriminate.
  - split; reflexivity.
Qed.

(** C6, as the code has it.  [getById] answers "Execution not found"
    exactly when the directory has no file [exec_<id>.json]; a file that
    exists, opens and holds no parseable line is answered with the
    well-formed object of an empty list of entries and count 0. *)
Theorem not_found_iff_file_absent (d : store) (id : string) :
  (Fixed.handle_get_execution d id = not_found
   <-> lookup (api_file_name id) d = None)
  /\ (Enhanced.handle_get_execution d id = not_found
      <-> lookup (api_file_name id) d = None)
  /\ (forall f,
        lookup (api_file_name id) d = Some f ->
        readable f = true ->
        entries_of (lines_of (holds f)) = [] ->
        Fixed.handle_get_execution d id = no_entries id
        /\ Enhanced.handle_get_execution d id = no_entries id).
Proof.
  split; [apply fixed_not_found_iff|].
  split; [apply enhanced_not_found_iff|].
  intros f Hf Hr He.
  unfold Fixed.handle_get_execution, Base.handle_get_execution,
    Enhanced.handle_get_execution, read_lines.
  rewrite Hf, Hr, He. split; reflexivity.
Qed.

Lemma not_found_iff_file_absent_witness :
  Fixed.handle_get_execution Sample.garbled "x" = no_entries "x"
  /\ Enhanced.handle_get_execution Sample.garbled "x" = no_entries "x".
Proof.
  apply (proj2 (proj2 (not_found_iff_file_absent Sample.garbled "x"))
           (Sample.events_file 5 [Malformed; Blank]));
    reflexivity.
Defined.

(** C6, as the claim has it, fails: the file [exec_x.json] holds no
    parseable event, and both servers answer with a well-formed object,
    not with "Execution not found". *)
Lemma garbled_file_is_found :
  entries_of [Malformed; Blank] = []
  /\ Fixed.handle_get_execution Sample.garbled "x" = no_entries "x"
  /\ Enhanced.handle_get_execution Sample.garbled "x" = no_entries "x"
  /\ no_entries "x" <> not_found.
Proof. repeat split; try reflexivity. discriminate. Qed.

(** ** The wrapper's file and the servers' file *)

Lemma lookup_write_same (name : string) (f : file) (d : store) :
  lookup name (Wrapper.write_file name f d) = Some f.
Proof.
  induction d as [|[n g] d IH]; simpl.
  - now rewrite String.eqb_refl.
  - destruct (n =? name) eqn:E; simpl.
    + now rewrite String.eqb_refl.
    + now rewrite E.
Qed.

Lemma lookup_write_other (name other : string) (f : file) (d : store) :
  other <> name ->
  lookup other (Wrapper.write_file name f d) = lookup other d.
Proof.
  intros Hne. induction d as [|[n g] d IH]; simpl.
  - apply String.eqb_neq in Hne. rewrite String.eqb_sym in Hne. now rewrite Hne.
  - destruct (n =? name) eqn:E; simpl.
    + apply String.eqb_eq in E. subst n.
      destruct (name =? other) eqn:E'; [|reflexivity].
      apply String.eqb_eq in E'. congruence.
    + now rewrite IH.
Qed.

Lemma api_name_is_not_wrapper_name (id rest : string) :
  api_file_name id <> Wrapper.log_file_name ("exec-" ++ rest).
Proof. unfold api_file_name, Wrapper.log_file_name. simpl. congruence. Qed.

Section WrapperFacts.

Variable isoformat : Z -> string.
Variable strftime : Z -> string.
Variable md5_hexdigest : string -> string.

Let create := Wrapper.create_log_entry isoformat strftime md5_hexdigest.
Let run := Wrapper.wrap_execute isoformat strftime md5_hexdigest.

Lemma wrapper_id_shape code language description w :
  exists rest, fst (create code language description w) = ("exec-" ++ rest)%string.
Proof. eexists. reflexivity. Qed.

Lemma wrap_execute_id code language description w :
  le_id (fst (run code language description w))
  = fst (create code (Wrapper.detect code language) description w).
Proof.
  unfold run, Wrapper.wrap_execute, Wrapper.execute_code. simpl.
  destruct (Wrapper.subprocess_run _ _ _) as [[| |] ?]; reflexivity.
Qed.

Lemma wrap_execute_saves code language description w :
  let r := run code language description w in
  lookup (Wrapper.log_file_name (le_id (fst r))) (Wrapper.files (snd r))
  = Some {| mtime := Wrapper.clock (snd r); readable := true;
            holds := Snapshot (fst r) |}.
Proof.
  unfold run, Wrapper.wrap_execute, Wrapper.execute_code. simpl.
  destruct (Wrapper.subprocess_run _ _ _) as [[| |] ?]; simpl;
    apply lookup_write_same.
Qed.

Lemma wrap_execute_keeps_api_files code language description w id :
  lookup (api_file_name id) (Wrapper.files (snd (run code language description w)))
  = lookup (api_file_name id) (Wrapper.files w).
Proof.
  unfold run, Wrapper.wrap_execute, Wrapper.execute_code, Wrapper.subprocess_run.
  simpl.
  destruct (Wrapper.programs _ _) as [after out err|after msg| |msg]; simpl;
    try (destruct (after <=? Wrapper.TIMEOUT_MS)%Z; simpl);
    rewrite !lookup_write_other; auto;
    exact (api_name_is_not_wrapper_name id _).
Qed.

End WrapperFacts.

Section WrapperRun.

Variable isoformat : Z -> string.
Variable strftime : Z -> string.
Variable md5_hexdigest : string -> string.

Let create := Wrapper.create_log_entry isoformat strftime md5_hexdigest.
Let run := Wrapper.wrap_execute isoformat strftime md5_hexdigest.

Lemma wrap_execute_never_served code language description w :
  let r := run code language description w in
  let name := Wrapper.log_file_name (le_id (fst r)) in
  lookup name (Wrapper.files (snd r))
  = Some {| mtime := Wrapper.clock (snd r); readable := true;
            holds := Snapshot (fst r) |}
  /\ (forall id, api_file_name id <> name)
  /\ (forall id,
        lookup (api_file_name id) (Wrapper.files (snd r))
        = lookup (api_file_name id) (Wrapper.files w)).
Proof.
  split; [apply wrap_execute_saves|].
  split.
  - intros id. unfold run. rewrite wrap_execute_id.
    exact (api_name_is_not_wrapper_name id _).
  - intros id. apply wrap_execute_keeps_api_files.
Qed.

(** C7.  When the command is still running at the deadline, the child
    is started once and killed, and the entry saved last, which is the
    one the file then holds, has status [timeout], the time-out message
    as its error and an empty output. *)
Theorem timeout_is_recorded code language description w :
  exceeds_deadline
    (Wrapper.programs w
       (Wrapper.command_for code (Wrapper.detect code language))) ->
  let r := run code language description w in
  let c := Wrapper.command_for code (Wrapper.detect code language) in
  let first := snd (create code (Wrapper.detect code language) description w) in
  let name := Wrapper.log_file_name (le_id (fst r)) in
  le_status first = "running"
  /\ le_status (fst r) = "timeout"
  /\ le_error (fst r) = "Execution timed out after 30 seconds"
  /\ le_output (fst r) = ""
  /\ Wrapper.trace (snd r)
     = Wrapper.trace w
       ++ [Wrapper.Saved name first; Wrapper.Spawned c; Wrapper.Killed c;
           Wrapper.Saved name (fst r)]
  /\ lookup name (Wrapper.files (snd r))
     = Some {| mtime := Wrapper.clock (snd r); readable := true;
               holds := Snapshot (fst r) |}.
Proof.
  intros Hlate r c first name.
  assert (Hsaved := wrap_execute_saves isoformat strftime md5_hexdigest
                      code language description w).
  fold run in Hsaved. cbv zeta in Hsaved. fold r name in Hsaved.
  repeat split; try exact Hsaved; try reflexivity;
    subst r name first c;
    unfold run, Wrapper.wrap_execute, Wrapper.execute_code, Wrapper.subprocess_run;
    simpl Wrapper.programs;
    destruct (Wrapper.programs w _) as [after out err|after msg| |msg];
    simpl in Hlate; try contradiction;
    try (assert (Hcmp : (after <=? Wrapper.TIMEOUT_MS)%Z = false)
           by (apply Z.leb_gt; exact Hlate); rewrite Hcmp);
    simpl; rewrite <- ?app_assoc; reflexivity.
Qed.

End WrapperRun.

Lemma timeout_is_recorded_witness :
  let r := Wrapper.wrap_execute Sample.isoformat Sample.strftime
             Sample.md5_hexdigest "sleep 60" "auto" None Sample.sleeper in
  le_status (fst r) = "timeout"
  /\ le_error (fst r) = "Execution timed out after 30 seconds"
  /\ le_output (fst r) = "".
Proof.
  destruct (timeout_is_recorded Sample.isoformat Sample.strftime
              Sample.md5_hexdigest "sleep 60" "auto" None Sample.sleeper I)
    as (_ & Hs & He & Ho & _).
  repeat split; assumption.
Defined.

(** C1 fails on the code.  The wrapper saves every execution under
    [<id>.json], a name no request can ask for: the servers look up
    [exec_<id>.json], so what [getById] finds is what it found before the
    run.  On an empty directory, the execution [print('hi')] is written
    and all three servers answer "Execution not found" for its id; the
    file does not match the listing pattern either. *)
Theorem wrapper_file_is_never_served :
  (forall isoformat strftime md5_hexdigest code language description w,
     let r := Wrapper.wrap_execute isoformat strftime md5_hexdigest
                code language description w in
     let name := Wrapper.log_file_name (le_id (fst r)) in
     lookup name (Wrapper.files (snd r))
     = Some {| mtime := Wrapper.clock (snd r); readable := true;
               holds := Snapshot (fst r) |}
     /\ (forall id, api_file_name id <> name)
     /\ (forall id,
           lookup (api_file_name id) (Wrapper.files (snd r))
           = lookup (api_file_name id) (Wrapper.files w)))
  /\ (let r := Wrapper.wrap_execute Sample.isoformat Sample.strftime
                 Sample.md5_hexdigest "print('hi')" "auto" None Sample.greeter in
      le_id (fst r) = "exec-2025-07-07-102000-0123abcd"
      /\ le_status (fst r) = "completed"
      /\ map fst (Wrapper.files (snd r)) = ["exec-2025-07-07-102000-0123abcd.json"]
      /\ Base.handle_get_execution (Wrapper.files (snd r)) (le_id (fst r)) = not_found
      /\ Fixed.handle_get_execution (Wrapper.files (snd r)) (le_id (fst r)) = not_found
      /\ Enhanced.handle_get_execution (Wrapper.files (snd r)) (le_id (fst r)) = not_found
      /\ glob_exec (Wrapper.files (snd r)) = []).
Proof.
  split.
  - intros. apply wrap_execute_never_served.
  - vm_compute. repeat split; reflexivity.
Qed.

(** ** The fold over the events of a file *)

Lemma fold_last_set {S : Type} (step : S -> line -> S) (proj : S -> json)
  (k : string) :
  (forall s l, proj (step s l) = or_else (line_sets k l) (proj s)) ->
  forall ls s, proj (fold_left step ls s) = or_else (last_set k ls) (proj s).
Proof.
  intros Hstep ls. induction ls as [|l r IH]; intros s; simpl; [reflexivity|].
  rewrite IH, Hstep.
  destruct (last_set k r); [reflexivity|].
  unfold line_sets. destruct l as [| |[| | | | |]]; reflexivity.
Qed.

Lemma keeps_ret {S A : Type} (proj : S -> json) (a : A) : keeps proj (@ret S A a).
Proof. intros s. reflexivity. Qed.

Lemma keeps_lift {S A : Type} (proj : S -> json) (r : result A) :
  keeps proj (@lift S A r).
Proof. intros s. reflexivity. Qed.

Lemma keeps_bind {S A B : Type} (proj : S -> json) (m : Try S A) (k : A -> Try S B) :
  keeps proj m -> (forall a, keeps proj (k a)) -> keeps proj (bind m k).
Proof.
  intros Hm Hk s. unfold bind. specialize (Hm s).
  destruct (m s) as [[a|e] s']; simpl in *.
  - rewrite Hk. exact Hm.
  - exact Hm.
Qed.

Lemma keeps_assign {S : Type} (proj : S -> json) (f : S -> S) :
  (forall s, proj (f s) = proj s) -> keeps proj (assign f).
Proof. intros Hf s. apply Hf. Qed.

Lemma keeps_when {S : Type} (proj : S -> json) (b : bool) (m : Try S unit) :
  keeps proj m -> keeps proj (when b m).
Proof. intros Hm. destruct b; [exact Hm | apply keeps_ret]. Qed.

Lemma keeps_if {S A : Type} (proj : S -> json) (b : bool) (m1 m2 : Try S A) :
  keeps proj m1 -> keeps proj m2 -> keeps proj (if b then m1 else m2).
Proof. intros H1 H2. destruct b; assumption. Qed.

Ltac keeps_tac :=
  repeat first
    [ apply keeps_bind; [|intros ?]
    | apply keeps_if
    | apply keeps_when
    | apply keeps_ret
    | apply keeps_lift
    | apply keeps_assign; intros ?; reflexivity ].

(** *** [get_execution_final_status] *)

Lemma fixed_pick_object k set kvs s :
  Fixed.pick k set (JObj kvs) s
  = (Ok tt, match dict_get k kvs with Some v => set v s | None => s end).
Proof.
  unfold Fixed.pick, bind, lift, when, assign, ret, py_in, py_index, dict_has.
  destruct (dict_get k kvs); reflexivity.
Qed.

Lemma fixed_pick_other k set v s :
  (forall kvs, v <> JObj kvs) ->
  snd (Fixed.pick k set v s) = s.
Proof.
  intros Hv.
  unfold Fixed.pick, bind, lift, when, assign, ret, py_in, py_index.
  destruct v as [| | |t|l|kvs]; try reflexivity.
  - destruct (contains k t); reflexivity.
  - destruct (existsb (is_str k) l); reflexivity.
  - now destruct (Hv kvs).
Qed.

Lemma fixed_scan_other v s :
  (forall kvs, v <> JObj kvs) ->
  except_pass (Fixed.scan_entry v) s = s.
Proof.
  intros Hv. unfold except_pass, Fixed.scan_entry, bind.
  repeat match goal with
  | |- context [Fixed.pick ?k ?f v ?s0] =>
      let H := fresh "H" in
      assert (H := fixed_pick_other k f v s0 Hv);
      destruct (Fixed.pick k f v s0) as [[[]|?] ?]; simpl in H; subst
  end; reflexivity.
Qed.

Lemma fixed_scan_object kvs s :
  except_pass (Fixed.scan_entry (JObj kvs)) s
  = {| Fixed.status := or_else (dict_get "status" kvs) (Fixed.status s);
       Fixed.timestamp := or_else (dict_get "timestamp" kvs) (Fixed.timestamp s);
       Fixed.execution_id :=
         or_else (dict_get "execution_id" kvs) (Fixed.execution_id s);
       Fixed.language := or_else (dict_get "language" kvs) (Fixed.language s) |}.
Proof.
  unfold except_pass, Fixed.scan_entry, bind.
  rewrite !fixed_pick_object.
  destruct s.
  destruct (dict_get "execution_id" kvs), (dict_get "language" kvs),
    (dict_get "status" kvs), (dict_get "timestamp" kvs); reflexivity.
Qed.

Lemma not_object_cases (v : json) :
  (exists kvs, v = JObj kvs) \/ (forall kvs, v <> JObj kvs).
Proof. destruct v; try (right; discriminate). left. eauto. Qed.

Lemma fixed_step (proj : Fixed.locals -> json) (k : string) :
  (forall kvs s, proj (except_pass (Fixed.scan_entry (JObj kvs)) s)
                 = or_else (dict_get k kvs) (proj s)) ->
  forall s l, proj (Fixed.scan_line s l) = or_else (line_sets k l) (proj s).
Proof.
  intros Hobj s [| |v]; try reflexivity.
  destruct (not_object_cases v) as [[kvs ->]|Hv].
  - apply Hobj.
  - simpl. rewrite (fixed_scan_other v s Hv).
    destruct v; try reflexivity. now destruct (Hv kvs).
Qed.

Lemma fixed_fields_last_written (f : file) :
  Fixed.status (Fixed.scan_file f) = last_written "status" (JStr "running") f
  /\ Fixed.timestamp (Fixed.scan_file f) = last_written "timestamp" JNull f
  /\ Fixed.execution_id (Fixed.scan_file f) = last_written "execution_id" JNull f
  /\ Fixed.language (Fixed.scan_file f) = last_written "language" (JStr "unknown") f.
Proof.
  unfold Fixed.scan_file, last_written.
  destruct (read_lines f) as [ls|e]; [|repeat split; reflexivity].
  repeat split.
  - apply (fold_last_set Fixed.scan_line Fixed.status "status").
    apply fixed_step. intros kvs s. now rewrite fixed_scan_object.
  - apply (fold_last_set Fixed.scan_line Fixed.timestamp "timestamp").
    apply fixed_step. intros kvs s. now rewrite fixed_scan_object.
  - apply (fold_last_set Fixed.scan_line Fixed.execution_id "execution_id").
    apply fixed_step. intros kvs s. now rewrite fixed_scan_object.
  - apply (fold_last_set Fixed.scan_line Fixed.language "language").
    apply fixed_step. intros kvs s. now rewrite fixed_scan_object.
Qed.

(** *** [get_execution_summary] *)

Lemma enhanced_pick_object k set kvs s :
  Enhanced.pick k set (JObj kvs) s
  = (Ok tt, match dict_get k kvs with Some v => set v s | None => s end).
Proof.
  unfold Enhanced.pick, bind, lift, when, assign, ret, py_in, py_index, dict_has.
  destruct (dict_get k kvs); reflexivity.
Qed.

Lemma enhanced_pick_other k set v s :
  (forall kvs, v <> JObj kvs) ->
  snd (Enhanced.pick k set v s) = s.
Proof.
  intros Hv.
  unfold Enhanced.pick, bind, lift, when, assign, ret, py_in, py_index.
  destruct v as [| | |t|l|kvs]; try reflexivity.
  - destruct (contains k t); reflexivity.
  - destruct (existsb (is_str k) l); reflexivity.
  - now destruct (Hv kvs).
Qed.

Lemma enhanced_capture_other v s :
  (forall kvs, v <> JObj kvs) ->
  snd (Enhanced.capture v s) = s.
Proof.
  intros Hv. unfold Enhanced.capture, bind, lift, py_get.
  destruct v; try reflexivity. now destruct (Hv kvs).
Qed.

Lemma enhanced_scan_other v s :
  (forall kvs, v <> JObj kvs) ->
  except_pass (Enhanced.scan_entry v) s = s.
Proof.
  intros Hv. unfold except_pass, Enhanced.scan_entry, bind.
  repeat match goal with
  | |- context [Enhanced.pick ?k ?f v ?s0] =>
      let H := fresh "H" in
      assert (H := enhanced_pick_other k f v s0 Hv);
      destruct (Enhanced.pick k f v s0) as [[[]|?] ?]; simpl in H; subst
  end; try reflexivity.
  apply enhanced_capture_other, Hv.
Qed.

(** The previews are captured after the four plain fields are set, and
    capturing them changes none of the four. *)
Lemma enhanced_capture_keeps (entry : json) :
  keeps Enhanced.status (Enhanced.capture entry)
  /\ keeps Enhanced.timestamp (Enhanced.capture entry)
  /\ keeps Enhanced.execution_id (Enhanced.capture entry)
  /\ keeps Enhanced.language (Enhanced.capture entry).
Proof.
  unfold Enhanced.capture, Enhanced.capture_code, Enhanced.capture_output.
  repeat split; keeps_tac.
Qed.

Lemma enhanced_scan_object kvs s :
  except_pass (Enhanced.scan_entry (JObj kvs)) s
  = snd (Enhanced.capture (JObj kvs)
           {| Enhanced.status := or_else (dict_get "status" kvs) (Enhanced.status s);
              Enhanced.timestamp :=
                or_else (dict_get "timestamp" kvs) (Enhanced.timestamp s);
              Enhanced.execution_id :=
                or_else (dict_get "execution_id" kvs) (Enhanced.execution_id s);
              Enhanced.language :=
                or_else (dict_get "language" kvs) (Enhanced.language s);
              Enhanced.code_preview := Enhanced.code_preview s;
              Enhanced.output_preview := Enhanced.output_preview s;
              Enhanced.error_preview := Enhanced.error_preview s;
              Enhanced.description := Enhanced.description s |}).
Proof.
  unfold except_pass, Enhanced.scan_entry, bind.
  rewrite !enhanced_pick_object.
  destruct s.
  destruct (dict_get "execution_id" kvs), (dict_get "language" kvs),
    (dict_get "status" kvs), (dict_get "timestamp" kvs); reflexivity.
Qed.

Lemma enhanced_step (proj : Enhanced.locals -> json) (k : string) :
  (forall kvs s, proj (except_pass (Enhanced.scan_entry (JObj kvs)) s)
                 = or_else (dict_get k kvs) (proj s)) ->
  forall s l, proj (Enhanced.scan_line s l) = or_else (line_sets k l) (proj s).
Proof.
  intros Hobj s [| |v]; try reflexivity.
  destruct (not_object_cases v) as [[kvs ->]|Hv].
  - apply Hobj.
  - simpl. rewrite (enhanced_scan_other v s Hv).
    destruct v; try reflexivity. now destruct (Hv kvs).
Qed.

Lemma enhanced_fields_last_written (f : file) :
  Enhanced.status (Enhanced.scan_file f) = last_written "status" (JStr "running") f
  /\ Enhanced.timestamp (Enhanced.scan_file f) = last_written "timestamp" JNull f
  /\ Enhanced.execution_id (Enhanced.scan_file f)
     = last_written "execution_id" JNull f
  /\ Enhanced.language (Enhanced.scan_file f)
     = last_written "language" (JStr "unknown") f.
Proof.
  unfold Enhanced.scan_file, last_written.
  destruct (read_lines f) as [ls|e]; [|repeat split; reflexivity].
  repeat split.
  - apply (fold_last_set Enhanced.scan_line Enhanced.status "status").
    apply enhanced_step. intros kvs s. rewrite enhanced_scan_object.
    now rewrite (proj1 (enhanced_capture_keeps (JObj kvs))).
  - apply (fold_last_set Enhanced.scan_line Enhanced.timestamp "timestamp").
    apply enhanced_step. intros kvs s. rewrite enhanced_scan_object.
    now rewrite (proj1 (proj2 (enhanced_capture_keeps (JObj kvs)))).
  - apply (fold_last_set Enhanced.scan_line Enhanced.execution_id "execution_id").
    apply enhanced_step. intros kvs s. rewrite enhanced_scan_object.
    now rewrite (proj1 (proj2 (proj2 (enhanced_capture_keeps (JObj kvs))))).
  - apply (fold_last_set Enhanced.scan_line Enhanced.language "language").
    apply enhanced_step. intros kvs s. rewrite enhanced_scan_object.
    now rewrite (proj2 (proj2 (proj2 (enhanced_capture_keeps (JObj kvs))))).
Qed.

(** C2 holds for the fold of the fixed and of the enhanced server: the
    status, and each of the other plain fields, is the value set by the
    last parsed event that sets it.  The base server does not fold: for
    the file of an execution that started and then completed it reports
    the status of the first line, [running], where the last event that
    sets the status says [completed]. *)
Theorem status_is_last_written :
  (forall f,
     Fixed.status (Fixed.scan_file f) = last_written "status" (JStr "running") f
     /\ Fixed.timestamp (Fixed.scan_file f) = last_written "timestamp" JNull f
     /\ Fixed.execution_id (Fixed.scan_file f) = last_written "execution_id" JNull f
     /\ Fixed.language (Fixed.scan_file f)
        = last_written "language" (JStr "unknown") f)
  /\ (forall f,
        Enhanced.status (Enhanced.scan_file f)
        = last_written "status" (JStr "running") f
        /\ Enhanced.timestamp (Enhanced.scan_file f)
           = last_written "timestamp" JNull f
        /\ Enhanced.execution_id (Enhanced.scan_file f)
           = last_written "execution_id" JNull f
        /\ Enhanced.language (Enhanced.scan_file f)
           = last_written "language" (JStr "unknown") f)
  /\ last_written "status" (JStr "running") Sample.two_events = JStr "completed"
  /\ Fixed.status (Fixed.scan_file Sample.two_events) = JStr "completed"
  /\ Enhanced.status (Enhanced.scan_file Sample.two_events) = JStr "completed"
  /\ Base.handle_list_executions Sample.one_run
     = Json (JObj
         [("executions", JArr
            [JObj [("id", JStr "a1");
                   ("timestamp", JStr "2025-07-07T10:20:00");
                   ("language", JStr "python");
                   ("status", JStr "running");
                   ("file", JStr "exec_a1.json")]]);
          ("count", JNum 1)]).
Proof.
  split; [exact fixed_fields_last_written|].
  split; [exact enhanced_fields_last_written|].
  repeat split; reflexivity.
Qed.

(** C5, as the code has it.  The timestamp of a summary is the timestamp
    set by the last parsed event of the file that carries one, in both
    folds; it is [null] when no event carries one. *)
Theorem timestamp_is_last_written (f : file) :
  Enhanced.timestamp (Enhanced.scan_file f) = last_written "timestamp" JNull f
  /\ Fixed.timestamp (Fixed.scan_file f) = last_written "timestamp" JNull f.
Proof.
  split.
  - apply enhanced_fields_last_written.
  - apply fixed_fields_last_written.
Qed.

(** C5, as the claim has it, fails: of the two timestamps of the file the
    earliest is 10:20:00, and both folds report 10:20:05, the last one
    seen; with the two lines swapped they report 10:20:00, so the answer
    depends on the order of the lines. *)
Lemma timestamp_is_not_the_earliest :
  earliest_timestamp [Parsed Sample.started; Parsed Sample.finished]
  = Some "2025-07-07T10:20:00"
  /\ Enhanced.timestamp (Enhanced.scan_file Sample.two_events)
     = JStr "2025-07-07T10:20:05"
  /\ Fixed.timestamp (Fixed.scan_file Sample.two_events)
     = JStr "2025-07-07T10:20:05"
  /\ Enhanced.timestamp (Enhanced.scan_file Sample.two_events_swapped)
     = JStr "2025-07-07T10:20:00"
  /\ Fixed.timestamp (Fixed.scan_file Sample.two_events_swapped)
     = JStr "2025-07-07T10:20:00".
Proof. repeat split; reflexivity. Qed.

(** ** Listing the recent executions *)

Lemma flat_map_optional {A B : Type} (keep : A -> bool) (f : A -> B) (l : list A) :
  flat_map (fun x => if keep x then [f x] else []) l = map f (filter keep l).
Proof.
  induction l as [|x l IH]; simpl; [reflexivity|].
  destruct (keep x); simpl; now rewrite IH.
Qed.

Lemma filter_length_le {A : Type} (keep : A -> bool) (l : list A) :
  length (filter keep l) <= length l.
Proof.
  induction l as [|x l IH]; simpl; [lia|]. destruct (keep x); simpl; lia.
Qed.

Lemma first_line_item_short (p : string * file) :
  length (Base.first_line_item p) <= 1.
Proof.
  unfold Base.first_line_item.
  destruct (read_lines (snd p)) as [[|[| |data] ls]|e]; simpl; try lia.
  destruct data as [| | | | |kvs]; simpl; try lia.
  repeat match goal with
  | |- context [dict_get ?k kvs] => destruct (dict_get k kvs)
  end; simpl; lia.
Qed.

Lemma flat_map_short {A B : Type} (f : A -> list B) (l : list A) :
  (forall x, length (f x) <= 1) -> length (flat_map f l) <= length l.
Proof.
  intros Hf. induction l as [|x l IH]; simpl; [lia|].
  rewrite length_app. specialize (Hf x). lia.
Qed.

Lemma listed_facts {A : Type} (R : A -> A -> Prop) (keep : A -> bool)
  (n : nat) (all sorted : list A) :
  Permutation sorted all -> StronglySorted R sorted ->
  let listed := filter keep (head_n n sorted) in
  length listed <= n
  /\ StronglySorted R listed
  /\ incl listed all
  /\ Forall (fun x => keep x = true) listed.
Proof.
  intros Hperm Hsort listed. subst listed. unfold head_n. repeat split.
  - etransitivity; [apply filter_length_le|apply firstn_le_length].
  - apply StronglySorted_filter, StronglySorted_firstn, Hsort.
  - intros x Hx. apply filter_In in Hx. destruct Hx as [Hx _].
    apply in_firstn in Hx. eapply Permutation_in; eauto.
  - apply Forall_forall. intros x Hx. apply filter_In in Hx. tauto.
Qed.

(** C4, as the code has it.  The limit is a constant of each server, 50
    in the enhanced one and 20 in the other two.  The enhanced server
    lists the files by descending modification time; the fixed and the
    base server list them by descending name.  The enhanced and the fixed
    server leave out every file whose fold yields no id. *)
Theorem list_recent_bound_and_order (d : store) :
  (exists listed,
     Enhanced.handle_list_executions d
     = Json (JObj
         [("executions", JArr (map Enhanced.get_execution_summary listed));
          ("count", count_of (map Enhanced.get_execution_summary listed));
          ("total_available", count_of (glob_exec d))])
     /\ length listed <= 50
     /\ StronglySorted newer_first listed
     /\ incl listed (glob_exec d)
     /\ Forall (fun p => has_id_enhanced p = true) listed)
  /\ (exists listed,
        Fixed.handle_list_executions d
        = Json (JObj
            [("executions", JArr (map Fixed.get_execution_final_status listed));
             ("count", count_of (map Fixed.get_execution_final_status listed))])
        /\ length listed <= 20
        /\ StronglySorted name_desc listed
        /\ incl listed (glob_exec d)
        /\ Forall (fun p => has_id_fixed p = true) listed)
  /\ (exists listed,
        Base.handle_list_executions d
        = Json (JObj
            [("executions", JArr (flat_map Base.first_line_item listed));
             ("count", count_of (flat_map Base.first_line_item listed))])
        /\ length (flat_map Base.first_line_item listed) <= 20
        /\ StronglySorted name_desc listed
        /\ incl listed (glob_exec d)).
Proof.
  split; [|split].
  - destruct (by_mtime_desc_sorted (glob_exec d)) as (sorted & Heq & Hperm & Hsort).
    destruct (listed_facts newer_first has_id_enhanced 50 _ _ Hperm Hsort)
      as (Hlen & Hord & Hincl & Hid).
    exists (filter has_id_enhanced (head_n 50 sorted)).
    repeat split; auto.
    unfold Enhanced.handle_list_executions. rewrite Heq.
    unfold Enhanced.list_item.
    rewrite (flat_map_optional has_id_enhanced Enhanced.get_execution_summary).
    unfold count_of. now rewrite (Permutation_length Hperm).
  - destruct (by_name_desc_sorted (glob_exec d)) as (sorted & Heq & Hperm & Hsort).
    destruct (listed_facts name_desc has_id_fixed 20 _ _ Hperm Hsort)
      as (Hlen & Hord & Hincl & Hid).
    exists (filter has_id_fixed (head_n 20 sorted)).
    repeat split; auto.
    unfold Fixed.handle_list_executions. rewrite Heq.
    unfold Fixed.list_item.
    now rewrite (flat_map_optional has_id_fixed Fixed.get_execution_final_status).
  - destruct (by_name_desc_sorted (glob_exec d)) as (sorted & Heq & Hperm & Hsort).
    exists (head_n 20 sorted). unfold head_n. repeat split.
    + unfold Base.handle_list_executions. now rewrite Heq.
    + etransitivity; [apply flat_map_short, first_line_item_short|].
      apply firstn_le_length.
    + apply StronglySorted_firstn, Hsort.
    + intros x Hx. apply in_firstn in Hx. eapply Permutation_in; eauto.
Qed.

(** C4, as the claim has it, fails: [exec_a.json] was modified after
    [exec_b.json], and the fixed server lists [exec_b.json] first. *)
Lemma fixed_listing_is_not_by_mtime :
  option_map mtime (lookup "exec_a.json" Sample.two_runs) = Some 20%Z
  /\ option_map mtime (lookup "exec_b.json" Sample.two_runs) = Some 10%Z
  /\ Fixed.handle_list_executions Sample.two_runs
     = Json (JObj
         [("executions", JArr
            [JObj [("id", JStr "b");
                   ("timestamp", JStr "2025-07-07T09:00:00");
                   ("language", JStr "unknown");
                   ("status", JStr "running");
                   ("file", JStr "exec_b.json")];
             JObj [("id", JStr "a");
                   ("timestamp", JStr "2025-07-07T10:00:00");
                   ("language", JStr "unknown");
                   ("status", JStr "running");
                   ("file", JStr "exec_a.json")]]);
          ("count", JNum 2)]).
Proof. repeat split; reflexivity. Qed.

(** ** The latest updates *)

Lemma max_by_spec {A : Type} (key : A -> Z) (l : list A) :
  l <> [] ->
  exists x, max_by key l = Some x /\ In x l
            /\ Forall (fun y => (key y <= key x)%Z) l.
Proof.
  induction l as [|a l IH]; intros Hne; [congruence|].
  destruct l as [|b l].
  - exists a. simpl. repeat split; auto. constructor; [lia|constructor].
  - destruct IH as (y & Hy & Hin & Hmax); [discriminate|].
    change (max_by key (a :: b :: l))
      with (match max_by key (b :: l) with
            | Some y => if (key a <? key y)%Z then Some y else Some a
            | None => Some a
            end).
    rewrite Hy. destruct (key a <? key y)%Z eqn:E.
    + apply Z.ltb_lt in E. exists y. repeat split; auto.
      * now right.
      * constructor; [lia|exact Hmax].
    + apply Z.ltb_ge in E. exists a. repeat split; auto.
      * now left.
      * constructor; [lia|].
        eapply Forall_impl; [|exact Hmax]. simpl. intros; lia.
Qed.

Lemma in_tail_n {A : Type} (x : A) (n : nat) (l : list A) :
  In x (tail_n n l) -> In x l.
Proof.
  unfold tail_n. intros H.
  rewrite <- (firstn_skipn (length l - n) l). apply in_or_app. now right.
Qed.

Lemma collect_tails_readable (l : list (string * file)) :
  Forall (fun p => readable (snd p) = true) l ->
  Enhanced.collect_tails l = Ok (flat_map tail_events l).
Proof.
  induction 1 as [|p l Hp Hl IH]; simpl; [reflexivity|].
  unfold read_lines. rewrite Hp. simpl. rewrite IH. reflexivity.
Qed.

Lemma tidy_files_readable (l : list (string * file)) :
  forallb tidy_file l = true -> Forall (fun p => readable (snd p) = true) l.
Proof.
  rewrite forallb_forall, Forall_forall. intros H p Hp.
  specialize (H p Hp). unfold tidy_file in H.
  now apply andb_true_iff in H.
Qed.

Lemma tidy_files_well_stamped (l : list (string * file)) :
  forallb tidy_file l = true -> forallb well_stamped (flat_map tail_events l) = true.
Proof.
  rewrite !forallb_forall. intros H e He.
  apply in_flat_map in He. destruct He as (p & Hp & He).
  specialize (H p Hp). unfold tidy_file in H.
  apply andb_true_iff in H. destruct H as [_ H].
  rewrite forallb_forall in H. apply H.
  unfold tail_events in He. eapply in_tail_n; eauto.
Qed.

Lemma forallb_sub {A : Type} (f : A -> bool) (l l' : list A) :
  incl l' l -> forallb f l = true -> forallb f l' = true.
Proof.
  rewrite !forallb_forall. intros Hincl H x Hx. apply H, Hincl, Hx.
Qed.

Lemma stamp_after_missing (e e' : json) :
  lacks_timestamp e -> stamp_desc e e' -> stamp e' = "".
Proof.
  intros Hlack Hord. unfold stamp_desc in Hord.
  assert (He : stamp e = "").
  { destruct e as [| | | | |kvs]; try reflexivity.
    simpl in *. now rewrite Hlack. }
  rewrite He in Hord. now apply string_leb_empty.
Qed.

(** C3, as the code has it.  In the enhanced server, on a tidy
    directory: the files are taken by descending modification time, the
    first ten of them give their last ten events each, the events are put
    in descending order of their timestamps, with nothing but events of
    an empty key after an event that has no timestamp, and the first
    fifty are the answer.  In the base server the function of that name
    answers with the parsed lines among the last fifty lines of the one
    file modified last. *)
Theorem latest_updates_algorithm (d : store) :
  (tidy_store d = true ->
   exists files events,
     Permutation files (glob_exec d)
     /\ StronglySorted newer_first files
     /\ Permutation events (flat_map tail_events (head_n 10 files))
     /\ StronglySorted stamp_desc events
     /\ (forall before e after,
           events = before ++ e :: after -> lacks_timestamp e ->
           Forall (fun e' => stamp e' = "") after)
     /\ Enhanced.handle_latest_updates d
        = Json (JObj [("entries", JArr (head_n 50 events));
                      ("count", count_of (head_n 50 events))]))
  /\ (glob_exec d <> [] ->
      exists latest,
        In latest (glob_exec d)
        /\ Forall (fun p => (mtime (snd p) <= mtime (snd latest))%Z) (glob_exec d)
        /\ Base.handle_latest_updates d
           = match read_lines (snd latest) with
             | Raise e => ErrorOf e
             | Ok ls =>
                 Json (JObj
                   [("entries", JArr (entries_of (tail_n 50 ls)));
                    ("count", count_of (entries_of (tail_n 50 ls)));
                    ("execution_id",
                     JStr (remove ".json" (remove "exec_" (fst latest))))])
             end).
Proof.
  split.
  - intros Htidy. unfold tidy_store in Htidy.
    destruct (by_mtime_desc_sorted (glob_exec d)) as (files & Hfiles & Hperm & Hsort).
    assert (Hfirst : forallb tidy_file (head_n 10 files) = true).
    { apply (forallb_sub tidy_file (glob_exec d)); [|exact Htidy].
      intros p Hp. apply in_firstn in Hp. eapply Permutation_in; eauto. }
    destruct (by_timestamp_desc_sorted (flat_map tail_events (head_n 10 files)))
      as (events & Hevents & Hperm' & Hsort').
    { now apply tidy_files_well_stamped. }
    exists files, events. repeat split; auto.
    + intros before e after Heq Hlack. subst events.
      apply StronglySorted_suffix in Hsort'.
      inversion Hsort' as [|? ? _ Hall]; subst.
      eapply Forall_impl; [|exact Hall].
      intros e' He'. eapply stamp_after_missing; eauto.
    + unfold Enhanced.handle_latest_updates.
      destruct (glob_exec d) as [|p l] eqn:Hglob.
      * apply Permutation_sym, Permutation_nil in Hperm. subst files.
        simpl in Hevents. injection Hevents as <-. reflexivity.
      * rewrite Hfiles. cbv beta iota delta [rbind].
        rewrite (collect_tails_readable _ (tidy_files_readable _ Hfirst)).
        rewrite Hevents. reflexivity.
  - intros Hne.
    destruct (max_by_spec (fun p : string * file => mtime (snd p)) (glob_exec d) Hne)
      as (latest & Hmax & Hin & Hall).
    exists latest. repeat split; auto.
    unfold Base.handle_latest_updates. rewrite Hmax. reflexivity.
Qed.

Lemma latest_updates_algorithm_witness :
  exists files events,
    Permutation files (glob_exec Sample.two_runs)
    /\ StronglySorted newer_first files
    /\ Permutation events (flat_map tail_events (head_n 10 files))
    /\ StronglySorted stamp_desc events
    /\ (forall before e after,
          events = before ++ e :: after -> lacks_timestamp e ->
          Forall (fun e' => stamp e' = "") after)
    /\ Enhanced.handle_latest_updates Sample.two_runs
       = Json (JObj [("entries", JArr (head_n 50 events));
                     ("count", count_of (head_n 50 events))]).
Proof.
  apply (proj1 (latest_updates_algorithm Sample.two_runs)).
  reflexivity.
Defined.

(** C3, as the claim has it, fails in the base server: of two files with
    one event each its [handle_latest_updates] returns the event of the
    file modified last and nothing of the other file, where the ten
    newest files were to contribute. *)
Lemma base_latest_reads_one_file :
  flat_map tail_events (glob_exec Sample.two_runs)
  = [Sample.event_a; Sample.event_b]
  /\ Base.handle_latest_updates Sample.two_runs
     = Json (JObj [("entries", JArr [Sample.event_a]);
                   ("count", JNum 1);
                   ("execution_id", JStr "a")])
  /\ Enhanced.handle_latest_updates Sample.two_runs
     = Json (JObj [("entries", JArr [Sample.event_a; Sample.event_b]);
                   ("count", JNum 2)]).
Proof. repeat split; reflexivity. Qed.

(** ** Output and error previews *)

Lemma prefix_app (sub s : string) : prefix sub (sub ++ s) = true.
Proof.
  induction sub as [|c sub IH]; simpl.
  - destruct s; reflexivity.
  - destruct (ascii_dec c c); [exact IH|congruence].
Qed.

Lemma prefix_split (sub s : string) :
  prefix sub s = true -> s = (sub ++ drop (String.length sub) s)%string.
Proof.
  revert s. induction sub as [|c sub IH]; intros [|c' s] H; simpl in *;
    try reflexivity; try discriminate.
  destruct (ascii_dec c c') as [<-|]; [|discriminate].
  f_equal. now apply IH.
Qed.

Lemma find_unfold (sub : string) (c : ascii) (r : string) :
  find sub (String c r)
  = if prefix sub (String c r) then Some 0%nat else option_map S (find sub r).
Proof. reflexivity. Qed.

Lemma find_some_split (sub s : string) (i : nat) :
  find sub s = Some i ->
  s = (take i s ++ sub ++ drop (i + String.length sub) s)%string.
Proof.
  revert i. induction s as [|c r IH]; intros i H.
  - destruct sub as [|c sub]; simpl in H; [|discriminate].
    injection H as <-. reflexivity.
  - rewrite find_unfold in H.
    destruct (prefix sub (String c r)) eqn:E.
    + injection H as <-. simpl take. simpl plus. now apply prefix_split.
    + destruct (find sub r) as [j|] eqn:Hj; [|discriminate].
      injection H as <-. simpl. f_equal. now apply IH.
Qed.

Lemma find_prefix (sub s : string) : prefix sub s = true -> find sub s = Some 0%nat.
Proof.
  intros H. destruct s as [|c r].
  - change (find sub "") with (if prefix sub "" then Some 0%nat else None).
    now rewrite H.
  - rewrite find_unfold. now rewrite H.
Qed.

Lemma find_first (sub a b : string) :
  occurs_before sub (a ++ sub ++ b) (String.length a) = false ->
  find sub (a ++ sub ++ b) = Some (String.length a).
Proof.
  induction a as [|c a IH]; intros H.
  - change (find sub (sub ++ b) = Some 0%nat).
    apply find_prefix. apply prefix_app.
  - change ((String c a ++ sub ++ b)%string) with (String c (a ++ sub ++ b)) in *.
    change (String.length (String c a)) with (S (String.length a)) in *.
    change (occurs_before sub (String c (a ++ sub ++ b)) (S (String.length a)))
      with (prefix sub (String c (a ++ sub ++ b))
            || occurs_before sub (a ++ sub ++ b) (String.length a)) in H.
    apply orb_false_iff in H. destruct H as [Hp Hb].
    rewrite find_unfold, Hp, (IH Hb). reflexivity.
Qed.

Lemma take_app_length (a s : string) : take (String.length a) (a ++ s) = a.
Proof. induction a as [|c a IH]; simpl; [now destruct s|now rewrite IH]. Qed.

Lemma drop_app_length (a s : string) (n : nat) :
  drop (String.length a + n) (a ++ s) = drop n s.
Proof. induction a as [|c a IH]; simpl; auto. Qed.

Lemma drop_all (s b : string) : drop (String.length s + 0) (s ++ b) = b.
Proof. rewrite drop_app_length. now destruct b. Qed.

Lemma split_once_first (sub a b : string) :
  occurs_before sub (a ++ sub ++ b) (String.length a) = false ->
  split_once sub (a ++ sub ++ b) = Some (a, b).
Proof.
  intros H. unfold split_once. rewrite (find_first sub a b H).
  rewrite take_app_length, drop_app_length.
  rewrite <- (Nat.add_0_r (String.length sub)). now rewrite drop_all.
Qed.

Lemma find_app (sub a b : string) : exists i, find sub (a ++ sub ++ b) = Some i.
Proof.
  induction a as [|c a [i IH]].
  - exists 0%nat. change (find sub (sub ++ b) = Some 0%nat).
    apply find_prefix. apply prefix_app.
  - change ((String c a ++ sub ++ b)%string) with (String c (a ++ sub ++ b)).
    rewrite find_unfold.
    destruct (prefix sub (String c (a ++ sub ++ b))); [eauto|].
    rewrite IH. simpl. eauto.
Qed.

(** [sub in s] says that [s] is some text, then [sub], then some text. *)
Lemma contains_iff (sub s : string) :
  contains sub s = true <-> exists a b, s = (a ++ sub ++ b)%string.
Proof.
  unfold contains. split.
  - destruct (find sub s) as [i|] eqn:E; [|discriminate].
    intros _. eauto using find_some_split.
  - intros (a & b & ->). destruct (find_app sub a b) as [i ->]. reflexivity.
Qed.

Lemma capture_output_event kvs t s :
  dict_get "type" kvs = Some (JStr "output") ->
  dict_get "output" kvs = Some (JStr t) ->
  snd (Enhanced.capture (JObj kvs) s)
  = if t =? "" then s
    else match split_once Enhanced.ERRORS_MARKER t with
         | Some (a, b) =>
             Enhanced.set_error_preview (JStr (take 200 b))
               (Enhanced.set_output_preview (JStr (take 200 a)) s)
         | None => Enhanced.set_output_preview (JStr (take 200 t)) s
         end.
Proof.
  intros Hty Hout.
  unfold Enhanced.capture, Enhanced.capture_output, bind, lift, assign, ret,
    py_get, py_in, py_split_once, py_slice, truthy, contains, split_once.
  rewrite Hty. cbn [is_str String.eqb Ascii.eqb Bool.eqb].
  rewrite Hout.
  destruct (t =? ""); cbn [negb]; [reflexivity|].
  destruct (find Enhanced.ERRORS_MARKER t); reflexivity.
Qed.

(** C10, as the code has it.  For an output event with the text [t]: an
    empty [t] leaves both previews as they were; a [t] that holds the
    marker is split at its first occurrence, the first 200 characters of
    the part before it become the output preview and the first 200 of
    the part after it the error preview; any other [t] gives its first
    200 characters as output preview and leaves the error preview as it
    was. *)
Theorem output_event_previews (s : Enhanced.locals) kvs (t : string) :
  dict_get "type" kvs = Some (JStr "output") ->
  dict_get "output" kvs = Some (JStr t) ->
  let s' := Enhanced.scan_line s (Parsed (JObj kvs)) in
  (t = "" ->
   Enhanced.output_preview s' = Enhanced.output_preview s
   /\ Enhanced.error_preview s' = Enhanced.error_preview s)
  /\ (forall a b,
        t = (a ++ Enhanced.ERRORS_MARKER ++ b)%string ->
        occurs_before Enhanced.ERRORS_MARKER t (String.length a) = false ->
        Enhanced.output_preview s' = JStr (take 200 a)
        /\ Enhanced.error_preview s' = JStr (take 200 b))
  /\ (t <> "" ->
      contains Enhanced.ERRORS_MARKER t = false ->
      Enhanced.output_preview s' = JStr (take 200 t)
      /\ Enhanced.error_preview s' = Enhanced.error_preview s).
Proof.
  intros Hty Hout s'. subst s'. simpl Enhanced.scan_line.
  rewrite enhanced_scan_object, (capture_output_event kvs t _ Hty Hout).
  split; [|split].
  - intros ->. split; reflexivity.
  - intros a b -> Hfirst.
    rewrite (split_once_first _ a b Hfirst).
    destruct (a ++ Enhanced.ERRORS_MARKER ++ b =? "")%string eqn:E.
    + apply String.eqb_eq in E. destruct a; discriminate E.
    + split; reflexivity.
  - intros Hne Hno.
    apply String.eqb_neq in Hne. rewrite Hne.
    unfold contains, split_once in *.
    destruct (find Enhanced.ERRORS_MARKER t); [discriminate|].
    split; reflexivity.
Qed.

Lemma output_event_previews_witness :
  let s' := Enhanced.scan_line Enhanced.initial
              (Parsed (Sample.output_event
                         ("out" ++ Enhanced.ERRORS_MARKER ++ "boom"))) in
  Enhanced.output_preview s' = JStr "out"
  /\ Enhanced.error_preview s' = JStr "boom".
Proof.
  apply (proj1 (proj2 (output_event_previews Enhanced.initial
                         [("type", JStr "output");
                          ("output", JStr ("out" ++ Enhanced.ERRORS_MARKER ++ "boom"))]
                         ("out" ++ Enhanced.ERRORS_MARKER ++ "boom")
                         eq_refl eq_refl)) "out" "boom");
    reflexivity.
Defined.

(** C10, as the claim has it, fails on a file with two output events.
    After [hello] an empty output leaves the preview [hello], not the
    empty text; after an output with errors a plain output leaves the
    error preview [boom], not an empty one. *)
Lemma output_previews_carry_over :
  contains Enhanced.ERRORS_MARKER "" = false
  /\ Enhanced.output_preview
       (Enhanced.scan_file (Sample.events_file 0 Sample.said_hello_then_nothing))
     = JStr "hello"
  /\ contains Enhanced.ERRORS_MARKER "fine" = false
  /\ Enhanced.output_preview
       (Enhanced.scan_file (Sample.events_file 0 Sample.failed_then_fine))
     = JStr "fine"
  /\ Enhanced.error_preview
       (Enhanced.scan_file (Sample.events_file 0 Sample.failed_then_fine))
     = JStr "boom".
Proof. repeat split; reflexivity. Qed.

(* ================================================================= *)
(** * Further statements *)

(** ** What a run of the wrapper records *)

Lemma length_write_file (name : string) (f : file) (d : store) :
  length (Wrapper.write_file name f d)
  = if path_exists name d then length d else S (length d).
Proof.
  unfold path_exists. induction d as [|[n g] d IH]; simpl; [reflexivity|].
  destruct (n =? name); simpl; [reflexivity|].
  rewrite IH. destruct (lookup name d); reflexivity.
Qed.

Lemma path_exists_write_same (name : string) (f : file) (d : store) :
  path_exists name (Wrapper.write_file name f d) = true.
Proof. unfold path_exists. now rewrite lookup_write_same. Qed.

Section WrapperOutcomes.

Variable isoformat : Z -> string.
Variable strftime : Z -> string.
Variable md5_hexdigest : string -> string.

Let create := Wrapper.create_log_entry isoformat strftime md5_hexdigest.
Let run := Wrapper.wrap_execute isoformat strftime md5_hexdigest.


(** X2.  A command that cannot be started is not retried: nothing is spawned,
    and the entry saved last has status [error], the text of the
    exception as error and an empty output. *)
Theorem spawn_failure_is_recorded code language description w message :
  Wrapper.programs w (Wrapper.command_for code (Wrapper.detect code language))
  = Wrapper.Cannot_start message ->
  let r := run code language description w in
  let made := create code (Wrapper.detect code language) description w in
  let name := Wrapper.log_file_name (fst made) in
  le_status (fst r) = "error"
  /\ le_output (fst r) = ""
  /\ le_error (fst r) = message
  /\ Wrapper.trace (snd r)
     = Wrapper.trace w
       ++ [Wrapper.Saved name (snd made); Wrapper.Saved name (fst r)].
Proof.
  intros Hfail r made name. subst r made name.
  unfold run, Wrapper.wrap_execute, Wrapper.execute_code, Wrapper.subprocess_run.
  simpl Wrapper.programs. rewrite Hfail. simpl.
  repeat split; try reflexivity.
  now rewrite <- !app_assoc.
Qed.



(** X5.  The id is made of the clock reading and the first fifty characters
    of the code and of nothing else: two executions created at the same
    reading whose codes agree on their first fifty characters get the
    same id and the same file, whatever their languages and
    descriptions. *)
Theorem same_prefix_same_id code1 code2 lang1 lang2 desc1 desc2 w :
  take 50 code1 = take 50 code2 ->
  fst (create code1 lang1 desc1 w) = fst (create code2 lang2 desc2 w)
  /\ Wrapper.log_file_name (fst (create code1 lang1 desc1 w))
     = Wrapper.log_file_name (fst (create code2 lang2 desc2 w)).
Proof.
  intros H. unfold create, Wrapper.create_log_entry. cbn [fst].
  rewrite H. split; reflexivity.
Qed.

End WrapperOutcomes.


Lemma spawn_failure_is_recorded_witness :
  let r := Wrapper.wrap_execute Sample.isoformat Sample.strftime
             Sample.md5_hexdigest "ls" "auto" None Cases.broken in
  le_status (fst r) = "error"
  /\ le_error (fst r) = "No such file or directory".
Proof.
  destruct (spawn_failure_is_recorded Sample.isoformat Sample.strftime
              Sample.md5_hexdigest "ls" "auto" None Cases.broken
              "No such file or directory" eq_refl)
    as (Hs & _ & He & _).
  split; assumption.
Defined.


Lemma same_prefix_same_id_witness :
  fst (Wrapper.create_log_entry Sample.isoformat Sample.strftime
         Sample.md5_hexdigest "ls" "shell" None Sample.greeter)
  = fst (Wrapper.create_log_entry Sample.isoformat Sample.strftime
           Sample.md5_hexdigest "ls" "python" (Some "again") Sample.greeter).
Proof.
  apply (proj1 (same_prefix_same_id Sample.isoformat Sample.strftime
                  Sample.md5_hexdigest "ls" "ls" "shell" "python"
                  None (Some "again") Sample.greeter eq_refl)).
Defined.

(** ** What the servers see of the writers *)

Lemma glob_exec_write_other (name : string) (f : file) (d : store) :
  startswith name "exec_" = false ->
  glob_exec (Wrapper.write_file name f d) = glob_exec d.
Proof.
  intros Hname. unfold glob_exec.
  induction d as [|[n g] d IH].
  - cbn [Wrapper.write_file filter fst]. now rewrite Hname.
  - cbn [Wrapper.write_file]. destruct (n =? name) eqn:E.
    + apply String.eqb_eq in E. subst n.
      cbn [filter fst]. now rewrite Hname.
    + cbn [filter]. now rewrite IH.
Qed.

Lemma api_name_starts_exec (id : string) :
  startswith (api_file_name id) "exec_" = true.
Proof. unfold startswith, api_file_name. apply prefix_app. Qed.

Lemma write_other_same_for_api (name : string) (f : file) (d : store) :
  startswith name "exec_" = false ->
  same_for_api d (Wrapper.write_file name f d).
Proof.
  intros Hname. split.
  - now apply glob_exec_write_other.
  - intros id. apply lookup_write_other. intros Heq.
    rewrite <- Heq, api_name_starts_exec in Hname. discriminate.
Qed.

Lemma same_for_api_trans (d1 d2 d3 : store) :
  same_for_api d1 d2 -> same_for_api d2 d3 -> same_for_api d1 d3.
Proof.
  intros [G1 L1] [G2 L2]. split.
  - now rewrite G2.
  - intros id. now rewrite L2.
Qed.

(** Every handler reads the directory through the pattern and through
    the names of ids only. *)
Lemma same_for_api_replies (d d' : store) (path : string) :
  same_for_api d d' ->
  Base.do_GET d' path = Base.do_GET d path
  /\ Fixed.do_GET d' path = Fixed.do_GET d path
  /\ Enhanced.do_GET d' path = Enhanced.do_GET d path.
Proof.
  intros [Hglob Hlook].
  unfold Base.do_GET, Fixed.do_GET, Enhanced.do_GET.
  repeat split; f_equal.
  - destruct (Base.route path); simpl; try reflexivity;
      unfold Base.handle_list_executions, Base.handle_get_execution,
        Base.handle_latest_updates;
      now rewrite ?Hglob, ?Hlook.
  - destruct (Fixed.route path); simpl; try reflexivity;
      unfold Fixed.handle_list_executions, Fixed.handle_get_execution,
        Fixed.handle_latest_updates, Base.handle_get_execution,
        Base.handle_latest_updates;
      now rewrite ?Hglob, ?Hlook.
  - destruct (Enhanced.route path); simpl; try reflexivity;
      unfold Enhanced.handle_list_executions, Enhanced.handle_get_execution,
        Enhanced.handle_latest_updates, Enhanced.handle_all_entries;
      now rewrite ?Hglob, ?Hlook.
Qed.

Lemma wrapper_name_not_exec_ (rest : string) :
  startswith (Wrapper.log_file_name ("exec-" ++ rest)) "exec_" = false.
Proof. reflexivity. Qed.

(** X6.  What the wrapper itself writes is invisible to the servers:
    after [save_log] has saved an entry under an id that
    [create_log_entry] made, into whatever directory, the pattern of the
    listings matches the files it matched before, every name a request
    can ask for leads where it led before, and no request is answered
    differently, on any of the three servers.  What the executed
    command may itself write into the directory is no part of this. *)
Theorem wrapper_saves_are_invisible
  isoformat strftime md5_hexdigest code language description w0 e w path :
  let exec_id := fst (Wrapper.create_log_entry isoformat strftime md5_hexdigest
                        code language description w0) in
  let saved := Wrapper.files (Wrapper.save_log exec_id e w) in
  same_for_api (Wrapper.files w) saved
  /\ Base.do_GET saved path = Base.do_GET (Wrapper.files w) path
  /\ Fixed.do_GET saved path = Fixed.do_GET (Wrapper.files w) path
  /\ Enhanced.do_GET saved path = Enhanced.do_GET (Wrapper.files w) path.
Proof.
  intros exec_id saved. subst exec_id saved.
  assert (H : same_for_api (Wrapper.files w)
                (Wrapper.files
                   (Wrapper.save_log
                      (fst (Wrapper.create_log_entry isoformat strftime
                              md5_hexdigest code language description w0))
                      e w))).
  { unfold Wrapper.save_log. cbn [Wrapper.files].
    apply write_other_same_for_api. exact (wrapper_name_not_exec_ _). }
  split; [exact H|]. now apply same_for_api_replies.
Qed.

(** X7.  [log_execution] returns the id under which it saved the entry; the
    entry is [error] exactly when an error text was given; and no request
    is answered differently after the call than before it, on any of the
    three servers. *)
Theorem logged_execution_is_invisible
  isoformat strftime md5_hexdigest
  description code output language error exec_time_ms w path :
  let r := Logger.log_execution isoformat strftime md5_hexdigest
             description code output language error exec_time_ms w in
  (exists e,
     lookup (Wrapper.log_file_name (fst r)) (Wrapper.files (snd r))
     = Some {| mtime := Wrapper.clock w; readable := true; holds := Snapshot e |}
     /\ le_id e = fst r
     /\ le_output e = output
     /\ (le_status e = "error" <-> error <> "")
     /\ (le_status e = "completed" <-> error = ""))
  /\ Base.do_GET (Wrapper.files (snd r)) path = Base.do_GET (Wrapper.files w) path
  /\ Fixed.do_GET (Wrapper.files (snd r)) path = Fixed.do_GET (Wrapper.files w) path
  /\ Enhanced.do_GET (Wrapper.files (snd r)) path
     = Enhanced.do_GET (Wrapper.files w) path.
Proof.
  intros r. subst r. unfold Logger.log_execution. cbn [fst snd].
  split.
  - eexists. split; [apply lookup_write_same|].
    cbn [le_id le_output le_status].
    destruct (error =? "") eqn:E.
    + apply String.eqb_eq in E. subst error.
      repeat split; try reflexivity; try discriminate; congruence.
    + apply String.eqb_neq in E.
      repeat split; try reflexivity; try discriminate; congruence.
  - apply same_for_api_replies. unfold Wrapper.save_log. cbn [Wrapper.files].
    apply write_other_same_for_api. exact (wrapper_name_not_exec_ _).
Qed.

(** ** Paths and ids *)

Lemma split_nonempty (c : ascii) (s : string) : split c s <> [].
Proof.
  destruct s as [|a r]; simpl; [discriminate|].
  destruct (Ascii.eqb a c); [discriminate|].
  destruct (split c r); discriminate.
Qed.

Lemma split_fields_free (c : ascii) (s : string) :
  Forall (fun x => free_of c x = true) (split c s).
Proof.
  induction s as [|a r IH]; simpl.
  - repeat constructor.
  - destruct (Ascii.eqb a c) eqn:E.
    + constructor; [reflexivity|exact IH].
    + destruct (split c r) as [|h t].
      * constructor; [|constructor]. simpl. now rewrite E.
      * inversion IH as [|? ? Hh Ht]; subst.
        constructor; [|exact Ht]. simpl. now rewrite E, Hh.
Qed.

Lemma last_field_free (c : ascii) (s : string) :
  free_of c (last_field c s) = true.
Proof.
  unfold last_field.
  assert (H := split_fields_free c s). assert (Hne := split_nonempty c s).
  induction (split c s) as [|h t IH]; [congruence|].
  inversion H as [|? ? Hh Ht]; subst.
  destruct t as [|h' t']; [exact Hh|].
  apply IH; [exact Ht|discriminate].
Qed.

Lemma split_of_free (c : ascii) (s : string) :
  free_of c s = true -> split c s = [s].
Proof.
  induction s as [|a r IH]; simpl; [reflexivity|].
  intros H. apply andb_true_iff in H. destruct H as [Ha Hr].
  apply negb_true_iff in Ha. rewrite Ha, (IH Hr). reflexivity.
Qed.

Lemma split_app_sep (c : ascii) (a b : string) :
  split c (a ++ String c b) = split c a ++ split c b.
Proof.
  induction a as [|x a IH]; simpl.
  - now rewrite Ascii.eqb_refl.
  - destruct (Ascii.eqb x c); [now rewrite IH|].
    rewrite IH. destruct (split c a) as [|h t] eqn:E; [|reflexivity].
    now destruct (split_nonempty c a).
Qed.

Lemma last_field_app (c : ascii) (a id : string) :
  free_of c id = true -> last_field c (a ++ String c id) = id.
Proof.
  intros H. unfold last_field.
  rewrite split_app_sep, (split_of_free c id H). apply last_last.
Qed.

Lemma free_of_app (c : ascii) (a b : string) :
  free_of c (a ++ b) = free_of c a && free_of c b.
Proof.
  induction a as [|x a IH]; simpl; [reflexivity|].
  rewrite IH. now rewrite andb_assoc.
Qed.

Lemma base_route_get (path id : string) :
  Base.route path = GetExecution id -> id = last_field "/" path.
Proof.
  unfold Base.route.
  repeat match goal with
  | |- context [if ?b then _ else _] => destruct b
  end; intros H; inversion H; reflexivity.
Qed.

Lemma enhanced_route_get (path id : string) :
  Enhanced.route path = GetExecution id ->
  id = last_field "/" path /\ id <> "latest" /\ id <> "all".
Proof.
  unfold Enhanced.route.
  destruct (path =? "/"); [discriminate|].
  destruct (path =? "/api/brain/executions"); [discriminate|].
  destruct (startswith path "/api/brain/executions/").
  - destruct (last_field "/" path =? "latest") eqn:E1; [discriminate|].
    destruct (last_field "/" path =? "all") eqn:E2; [discriminate|].
    intros H. inversion H. subst id.
    apply String.eqb_neq in E1, E2. auto.
  - destruct (path =? "/health"); discriminate.
Qed.

(** X8.  The id a dispatcher hands to [handle_get_execution] is the last
    field of the path: it holds no slash, so the file looked up lies in
    the log directory itself; and in the enhanced server it is never
    [latest] nor [all], which are endpoints there. *)
Theorem dispatched_id_is_one_field (path id : string) :
  (Base.route path = GetExecution id ->
   free_of "/" id = true /\ free_of "/" (api_file_name id) = true)
  /\ (Fixed.route path = GetExecution id ->
      free_of "/" id = true /\ free_of "/" (api_file_name id) = true)
  /\ (Enhanced.route path = GetExecution id ->
      free_of "/" id = true /\ free_of "/" (api_file_name id) = true
      /\ id <> "latest" /\ id <> "all").
Proof.
  assert (Hname : forall i, free_of "/" i = true ->
                            free_of "/" (api_file_name i) = true).
  { intros i Hi. unfold api_file_name. rewrite !free_of_app, Hi. reflexivity. }
  split; [|split].
  - intros H. apply base_route_get in H. subst id.
    split; [|apply Hname]; apply last_field_free.
  - rewrite fixed_route_is_base_route. intros H. apply base_route_get in H.
    subst id. split; [|apply Hname]; apply last_field_free.
  - intros H. apply enhanced_route_get in H. destruct H as (-> & H1 & H2).
    repeat split; auto; [|apply Hname]; apply last_field_free.
Qed.

Lemma dispatched_id_is_one_field_witness :
  free_of "/" "b" = true /\ free_of "/" (api_file_name "b") = true
  /\ "b" <> "latest" /\ "b" <> "all".
Proof.
  apply (proj2 (proj2 (dispatched_id_is_one_field
                         "/api/brain/executions/a/b" "b"))).
  reflexivity.
Defined.

Lemma last_field_of_request (id : string) :
  free_of "/" id = true ->
  last_field "/" ("/api/brain/executions/" ++ id) = id.
Proof.
  intros H.
  change ("/api/brain/executions/" ++ id)%string
    with ("/api/brain/executions" ++ String "/" id)%string.
  now apply last_field_app.
Qed.

Lemma route_of_id (id : string) :
  free_of "/" id = true ->
  Base.route ("/api/brain/executions/" ++ id) = GetExecution id
  /\ Fixed.route ("/api/brain/executions/" ++ id) = GetExecution id
  /\ (id <> "latest" -> id <> "all" ->
      Enhanced.route ("/api/brain/executions/" ++ id) = GetExecution id).
Proof.
  intros Hid. assert (Hlast := last_field_of_request id Hid).
  assert (Hpre : startswith ("/api/brain/executions/" ++ id)
                   "/api/brain/executions/" = true)
    by apply prefix_app.
  assert (Hbase : Base.route ("/api/brain/executions/" ++ id) = GetExecution id).
  { unfold Base.route. rewrite Hlast, Hpre. reflexivity. }
  split; [exact Hbase|]. split; [exact Hbase|].
  intros H1 H2. unfold Enhanced.route. rewrite Hlast, Hpre.
  apply String.eqb_neq in H1, H2. rewrite H1, H2. reflexivity.
Qed.

(** X9.  A request whose target has the path [/api/brain/executions/<id>],
    as [urlparse] finds it, with an [<id>] free of slashes, is answered
    by [handle_get_execution] with exactly that id in the base and the
    fixed server, the id [latest] included, and in the enhanced server
    for every such id but [latest] and [all].  The parameters, the query
    and the fragment of the target are no part of the id: they are not
    in the path. *)
Theorem request_reaches_its_id (url_path : string -> option string)
  (d : store) (target id : string) :
  url_path target = Some ("/api/brain/executions/" ++ id)%string ->
  free_of "/" id = true ->
  Request.base url_path d target
  = Some (reply (Base.handle_get_execution d id))
  /\ Request.fixed url_path d target
     = Some (reply (Fixed.handle_get_execution d id))
  /\ (id <> "latest" -> id <> "all" ->
      Request.enhanced url_path d target
      = Some (reply (Enhanced.handle_get_execution d id))).
Proof.
  intros Hpath Hid.
  destruct (route_of_id id Hid) as (Hb & Hf & He).
  unfold Request.base, Request.fixed, Request.enhanced. rewrite Hpath.
  unfold Base.do_GET, Fixed.do_GET, Enhanced.do_GET. cbn [option_map].
  rewrite Hb, Hf. repeat split.
  intros H1 H2. now rewrite (He H1 H2).
Qed.

Lemma request_reaches_its_id_witness :
  Request.enhanced Cases.url_path Sample.one_run
    "/api/brain/executions/a1?full=1#top"
  = Some (reply (Enhanced.handle_get_execution Sample.one_run "a1")).
Proof.
  apply (proj2 (proj2 (request_reaches_its_id Cases.url_path Sample.one_run
                         "/api/brain/executions/a1?full=1#top" "a1"
                         eq_refl eq_refl)));
    discriminate.
Defined.

Lemma string_length_app (a b : string) :
  String.length (a ++ b) = String.length a + String.length b.
Proof. induction a as [|c a IH]; simpl; [reflexivity|now rewrite IH]. Qed.

Lemma string_app_inj_l (a b s : string) : (a ++ s = b ++ s)%string -> a = b.
Proof.
  revert b. induction a as [|x a IH]; intros [|y b] H; simpl in H.
  - reflexivity.
  - apply (f_equal String.length) in H. simpl in H.
    rewrite string_length_app in H. lia.
  - apply (f_equal String.length) in H. simpl in H.
    rewrite string_length_app in H. lia.
  - injection H as -> H. f_equal. now apply IH.
Qed.

(** X10.  Two different ids never share a file, neither among the files the
    servers look up nor among the files the wrapper writes. *)
Theorem file_names_are_injective (id1 id2 : string) :
  (api_file_name id1 = api_file_name id2 -> id1 = id2)
  /\ (Wrapper.log_file_name id1 = Wrapper.log_file_name id2 -> id1 = id2).
Proof.
  unfold api_file_name, Wrapper.log_file_name. split; intros H.
  - simpl in H. injection H as H. now apply string_app_inj_l in H.
  - now apply string_app_inj_l in H.
Qed.

Lemma file_names_are_injective_witness : "a1" = "a1".
Proof.
  apply (proj1 (file_names_are_injective "a1" "a1")). reflexivity.
Defined.

(** ** Listings on damaged and on empty directories *)

Section SortMap.

Context {A B K : Type}.
Variable lt : K -> K -> result bool.
Variable g : A -> B.







End SortMap.









Lemma head_n_all {A : Type} (n : nat) (l : list A) :
  length l <= n -> head_n n l = l.
Proof. intros H. unfold head_n. now apply firstn_all2. Qed.



(** X13.  On a directory without any file of the pattern [exec_*.json],
    whatever else it holds, every view answers with an empty result and
    count 0, none with an error. *)
Theorem empty_directory_gives_empty_views (d : store) :
  glob_exec d = [] ->
  Base.handle_list_executions d
  = Json (JObj [("executions", JArr []); ("count", JNum 0)])
  /\ Fixed.handle_list_executions d
     = Json (JObj [("executions", JArr []); ("count", JNum 0)])
  /\ Enhanced.handle_list_executions d
     = Json (JObj [("executions", JArr []); ("count", JNum 0);
                   ("total_available", JNum 0)])
  /\ Base.handle_latest_updates d
     = Json (JObj [("entries", JArr []); ("count", JNum 0)])
  /\ Enhanced.handle_latest_updates d
     = Json (JObj [("entries", JArr []); ("count", JNum 0)])
  /\ Enhanced.handle_all_entries d
     = Json (JObj [("entries", JArr []); ("count", JNum 0);
                   ("total_available", JNum 0)]).
Proof.
  intros H.
  unfold Base.handle_list_executions, Fixed.handle_list_executions,
    Enhanced.handle_list_executions, Base.handle_latest_updates,
    Enhanced.handle_latest_updates, Enhanced.handle_all_entries.
  rewrite H. repeat split; reflexivity.
Qed.

Lemma empty_directory_gives_empty_views_witness :
  Enhanced.handle_list_executions
    [("exec-2025-07-07-102000-0123abcd.json", Sample.two_events)]
  = Json (JObj [("executions", JArr []); ("count", JNum 0);
                ("total_available", JNum 0)]).
Proof.
  apply (empty_directory_gives_empty_views
           [("exec-2025-07-07-102000-0123abcd.json", Sample.two_events)]
           eq_refl).
Defined.

(** X14.  The base listing decides by the first line alone.  A file whose
    first line is a JSON object is listed, with [null] as id and
    timestamp and [unknown] as language and status for the keys the
    line lacks; every other file, one that is empty, that cannot be
    opened or whose first line is blank, unparseable or not an object,
    is left out. *)
Theorem base_lists_by_first_line (p : string * file) :
  (forall kvs rest,
     read_lines (snd p) = Ok (Parsed (JObj kvs) :: rest) ->
     Base.first_line_item p
     = [JObj [("id", or_else (dict_get "execution_id" kvs) JNull);
              ("timestamp", or_else (dict_get "timestamp" kvs) JNull);
              ("language", or_else (dict_get "language" kvs) (JStr "unknown"));
              ("status", or_else (dict_get "status" kvs) (JStr "unknown"));
              ("file", JStr (fst p))]])
  /\ ((forall kvs rest, read_lines (snd p) <> Ok (Parsed (JObj kvs) :: rest)) ->
      Base.first_line_item p = []).
Proof.
  unfold Base.first_line_item. split.
  - intros kvs rest ->. unfold py_get, rbind.
    destruct (dict_get "execution_id" kvs), (dict_get "timestamp" kvs),
      (dict_get "language" kvs), (dict_get "status" kvs); reflexivity.
  - intros H. destruct (read_lines (snd p)) as [[|[| |v] ls]|e]; try reflexivity.
    destruct v as [| | | | |kvs]; try reflexivity.
    now destruct (H kvs ls).
Qed.

Lemma base_lists_by_first_line_witness :
  Base.first_line_item ("exec_f.json", Sample.events_file 1 [Parsed Sample.finished])
  = [JObj [("id", JNull);
           ("timestamp", JStr "2025-07-07T10:20:05");
           ("language", JStr "unknown");
           ("status", JStr "completed");
           ("file", JStr "exec_f.json")]].
Proof.
  apply (proj1 (base_lists_by_first_line
                  ("exec_f.json", Sample.events_file 1 [Parsed Sample.finished]))
           [("status", JStr "completed");
            ("timestamp", JStr "2025-07-07T10:20:05")] []).
  reflexivity.
Defined.

(** ** More on the fold of a file *)

Lemma fixed_fold_skips (ls : list line) (s : Fixed.locals) :
  fold_left Fixed.scan_line (filter is_event ls) s
  = fold_left Fixed.scan_line ls s.
Proof.
  revert s. induction ls as [|l ls IH]; intros s; [reflexivity|].
  destruct l as [| |v]; simpl; auto.
  destruct (not_object_cases v) as [[kvs ->]|Hv]; simpl; auto.
  rewrite (fixed_scan_other v s Hv).
  destruct v; auto. now destruct (Hv kvs).
Qed.

Lemma enhanced_fold_skips (ls : list line) (s : Enhanced.locals) :
  fold_left Enhanced.scan_line (filter is_event ls) s
  = fold_left Enhanced.scan_line ls s.
Proof.
  revert s. induction ls as [|l ls IH]; intros s; [reflexivity|].
  destruct l as [| |v]; simpl; auto.
  destruct (not_object_cases v) as [[kvs ->]|Hv]; simpl; auto.
  rewrite (enhanced_scan_other v s Hv).
  destruct v; auto. now destruct (Hv kvs).
Qed.

(** X15.  Both folds skip what is not an event: the summary of a file is the
    summary of the file without its blank lines, its unparseable lines
    and its lines that parse to something else than an object.  A file
    holding one dictionary written with [indent=2], as the wrapper
    writes it, has no event at all and folds to the defaults, without an
    id. *)
Theorem summary_ignores_noise (t : Z) (r : bool) (ls : list line) (e : log_entry) :
  Fixed.scan_file {| mtime := t; readable := r; holds := Events ls |}
  = Fixed.scan_file
      {| mtime := t; readable := r; holds := Events (filter is_event ls) |}
  /\ Enhanced.scan_file {| mtime := t; readable := r; holds := Events ls |}
     = Enhanced.scan_file
         {| mtime := t; readable := r; holds := Events (filter is_event ls) |}
  /\ Fixed.scan_file {| mtime := t; readable := r; holds := Snapshot e |}
     = Fixed.initial
  /\ Enhanced.scan_file {| mtime := t; readable := r; holds := Snapshot e |}
     = Enhanced.initial.
Proof.
  unfold Fixed.scan_file, Enhanced.scan_file, read_lines.
  destruct r; simpl; repeat split; try reflexivity.
  - symmetry. apply fixed_fold_skips.
  - symmetry. apply enhanced_fold_skips.
Qed.

(** X16.  The two folds agree on what they share: for every file the id, the
    timestamp, the language and the status of the enhanced summary are
    those of the fixed summary, so a file passes the id test of one
    listing exactly when it passes the test of the other. *)
Theorem folds_agree (p : string * file) :
  Enhanced.execution_id (Enhanced.scan_file (snd p))
  = Fixed.execution_id (Fixed.scan_file (snd p))
  /\ Enhanced.timestamp (Enhanced.scan_file (snd p))
     = Fixed.timestamp (Fixed.scan_file (snd p))
  /\ Enhanced.language (Enhanced.scan_file (snd p))
     = Fixed.language (Fixed.scan_file (snd p))
  /\ Enhanced.status (Enhanced.scan_file (snd p))
     = Fixed.status (Fixed.scan_file (snd p))
  /\ has_id_enhanced p = has_id_fixed p.
Proof.
  destruct (fixed_fields_last_written (snd p)) as (Fs & Ft & Fi & Fl).
  destruct (enhanced_fields_last_written (snd p)) as (Es & Et & Ei & El).
  unfold has_id_enhanced, has_id_fixed.
  rewrite Fs, Ft, Fi, Fl, Es, Et, Ei, El. repeat split; reflexivity.
Qed.

Lemma capture_code_event kvs s :
  dict_get "type" kvs = Some (JStr "code") ->
  snd (Enhanced.capture (JObj kvs) s)
  = match py_slice 200 (or_else (dict_get "code" kvs) (JStr "")) with
    | Ok preview =>
        Enhanced.set_description (or_else (dict_get "message" kvs) (JStr ""))
          (Enhanced.set_code_preview preview s)
    | Raise _ => s
    end.
Proof.
  intros Hty.
  unfold Enhanced.capture, Enhanced.capture_code, bind, lift, assign, py_get.
  rewrite Hty. cbn [is_str String.eqb Ascii.eqb Bool.eqb andb].
  destruct (dict_get "code" kvs) as [v|]; cbn [or_else].
  - destruct (py_slice 200 v); [|reflexivity].
    destruct (dict_get "message" kvs); reflexivity.
  - cbn [py_slice]. destruct (dict_get "message" kvs); reflexivity.
Qed.

(** X17.  A code event gives the first 200 characters of its code as code
    preview and its message as description, the empty text for a code or
    a message it lacks.  When its code is a value no slice can be taken
    of, neither the code preview nor the description changes, while
    the status and the id of the same event are still taken.  A code
    event never changes the output and error previews. *)
Theorem code_event_previews (s : Enhanced.locals) kvs :
  dict_get "type" kvs = Some (JStr "code") ->
  let s' := Enhanced.scan_line s (Parsed (JObj kvs)) in
  (forall c,
     dict_get "code" kvs = Some (JStr c) ->
     Enhanced.code_preview s' = JStr (take 200 c)
     /\ Enhanced.description s' = or_else (dict_get "message" kvs) (JStr ""))
  /\ (dict_get "code" kvs = None ->
      Enhanced.code_preview s' = JStr ""
      /\ Enhanced.description s' = or_else (dict_get "message" kvs) (JStr ""))
  /\ (forall v,
        dict_get "code" kvs = Some v -> unsliceable v ->
        Enhanced.code_preview s' = Enhanced.code_preview s
        /\ Enhanced.description s' = Enhanced.description s
        /\ Enhanced.status s'
           = or_else (dict_get "status" kvs) (Enhanced.status s)
        /\ Enhanced.execution_id s'
           = or_else (dict_get "execution_id" kvs) (Enhanced.execution_id s))
  /\ Enhanced.output_preview s' = Enhanced.output_preview s
  /\ Enhanced.error_preview s' = Enhanced.error_preview s.
Proof.
  intros Hty s'. subst s'. simpl Enhanced.scan_line.
  rewrite enhanced_scan_object, (capture_code_event kvs _ Hty).
  repeat split.
  - rewrite H. reflexivity.
  - rewrite H. reflexivity.
  - rewrite H. reflexivity.
  - rewrite H. reflexivity.
  - rewrite H. destruct v; simpl in *; try contradiction; reflexivity.
  - rewrite H. destruct v; simpl in *; try contradiction; reflexivity.
  - rewrite H. destruct v; simpl in *; try contradiction; reflexivity.
  - rewrite H. destruct v; simpl in *; try contradiction; reflexivity.
  - destruct (py_slice 200 _); reflexivity.
  - destruct (py_slice 200 _); reflexivity.
Qed.

Lemma code_event_previews_witness :
  let s' := Enhanced.scan_line Enhanced.initial (Parsed Cases.numbered) in
  Enhanced.code_preview s' = JStr ""
  /\ Enhanced.description s' = JStr ""
  /\ Enhanced.status s' = JStr "completed"
  /\ Enhanced.execution_id s' = JStr "n1".
Proof.
  apply (proj1 (proj2 (proj2
           (code_event_previews Enhanced.initial
              [("execution_id", JStr "n1"); ("type", JStr "code");
               ("code", JNum 7); ("status", JStr "completed")]
              eq_refl))) (JNum 7) eq_refl I).
Defined.

(** ** The length of the previews *)

Lemma preserves_ret {S A : Type} (P : S -> Prop) (a : A) : preserves P (@ret S A a).
Proof. intros s H. exact H. Qed.

Lemma preserves_bind {S A B : Type} (P : S -> Prop) (m : Try S A) (k : A -> Try S B) :
  preserves P m -> (forall a, preserves P (k a)) -> preserves P (bind m k).
Proof.
  intros Hm Hk s Hs. unfold bind. specialize (Hm s Hs).
  destruct (m s) as [[a|e] s']; simpl in *; [now apply Hk|exact Hm].
Qed.

Lemma preserves_bind_lift {S A B : Type} (P : S -> Prop) (r : result A)
  (k : A -> Try S B) :
  (forall a, r = Ok a -> preserves P (k a)) -> preserves P (bind (lift r) k).
Proof.
  intros Hk s Hs. unfold bind, lift.
  destruct r as [a|e]; simpl; [now apply (Hk a)|exact Hs].
Qed.

Lemma preserves_assign {S : Type} (P : S -> Prop) (f : S -> S) :
  (forall s, P s -> P (f s)) -> preserves P (assign f).
Proof. intros Hf s Hs. now apply Hf. Qed.

Lemma take_length_le (n : nat) (s : string) : String.length (take n s) <= n.
Proof.
  revert s. induction n as [|n IH]; intros [|c s]; simpl; try lia.
  specialize (IH s). lia.
Qed.

Lemma py_slice_short (v a : json) : py_slice 200 v = Ok a -> within_200 a.
Proof.
  destruct v as [| | |s|l|]; cbn [py_slice]; try discriminate; intros H.
  - assert (Ha : a = JStr (take 200 s)) by congruence. rewrite Ha.
    exact (take_length_le 200 s).
  - assert (Ha : a = JArr (head_n 200 l)) by congruence. rewrite Ha.
    exact (firstn_le_length 200 l).
Qed.

Lemma enhanced_pick_short k set entry :
  (forall v s, short_previews s -> short_previews (set v s)) ->
  preserves short_previews (Enhanced.pick k set entry).
Proof.
  intros Hset. unfold Enhanced.pick.
  apply preserves_bind_lift. intros [|] _; simpl; [|apply preserves_ret].
  apply preserves_bind_lift. intros v _. apply preserves_assign. apply Hset.
Qed.

Lemma capture_code_short entry :
  preserves short_previews (Enhanced.capture_code entry).
Proof.
  unfold Enhanced.capture_code.
  apply preserves_bind_lift. intros code _.
  apply preserves_bind_lift. intros preview Hpreview.
  apply py_slice_short in Hpreview.
  apply preserves_bind.
  - apply preserves_assign. intros s (_ & Ho & He). repeat split; assumption.
  - intros _. apply preserves_bind_lift. intros message _.
    apply preserves_assign. intros s H. exact H.
Qed.

Lemma capture_output_short entry :
  preserves short_previews (Enhanced.capture_output entry).
Proof.
  unfold Enhanced.capture_output.
  apply preserves_bind_lift. intros output_text _.
  destruct (truthy output_text); [|apply preserves_ret].
  apply preserves_bind_lift. intros [|] _.
  - apply preserves_bind_lift. intros parts _.
    apply preserves_bind_lift. intros output_part Hout.
    apply py_slice_short in Hout.
    apply preserves_bind.
    + apply preserves_assign. intros s (Hc & _ & He). repeat split; assumption.
    + intros _. apply preserves_bind_lift. intros error_part Herr.
      apply py_slice_short in Herr.
      apply preserves_assign. intros s (Hc & Ho & _). repeat split; assumption.
  - apply preserves_bind_lift. intros preview Hpreview.
    apply py_slice_short in Hpreview.
    apply preserves_assign. intros s (Hc & _ & He). repeat split; assumption.
Qed.

Lemma scan_entry_short entry :
  preserves short_previews (Enhanced.scan_entry entry).
Proof.
  unfold Enhanced.scan_entry.
  repeat (apply preserves_bind;
          [apply enhanced_pick_short; intros v s H; exact H|intros _]).
  unfold Enhanced.capture.
  apply preserves_bind_lift. intros kind _.
  destruct (is_str "code" kind); [apply capture_code_short|].
  apply preserves_bind_lift. intros kind' _.
  destruct (is_str "output" kind'); [apply capture_output_short|apply preserves_ret].
Qed.

(** X18.  Whatever a file holds, the three previews of its summary are texts
    of at most 200 characters (or lists of at most 200 elements, when an
    event carried a list where a text was expected). *)
Theorem previews_are_short (f : file) : short_previews (Enhanced.scan_file f).
Proof.
  assert (Hinit : short_previews Enhanced.initial).
  { unfold short_previews. simpl. repeat split; lia. }
  unfold Enhanced.scan_file. destruct (read_lines f) as [ls|e]; [|exact Hinit].
  generalize Enhanced.initial, Hinit. induction ls as [|l ls IH]; intros s Hs.
  - exact Hs.
  - simpl. apply IH. destruct l as [| |entry]; simpl; try exact Hs.
    now apply scan_entry_short.
Qed.

(** ** The entries of one execution in the enhanced server *)

Lemma dict_get_set_same (k : string) (v : json) kvs :
  dict_get k (dict_set k v kvs) = Some v.
Proof.
  induction kvs as [|[k' v'] kvs IH]; simpl.
  - now rewrite String.eqb_refl.
  - destruct (k' =? k) eqn:E; simpl; [now rewrite String.eqb_refl|].
    now rewrite E.
Qed.

Lemma dict_get_set_other (k k' : string) (v : json) kvs :
  k' <> k -> dict_get k' (dict_set k v kvs) = dict_get k' kvs.
Proof.
  intros Hne. apply String.eqb_neq in Hne.
  induction kvs as [|[k0 v0] kvs IH]; simpl.
  - rewrite String.eqb_sym in Hne. now rewrite Hne.
  - destruct (k0 =? k) eqn:E; simpl.
    + apply String.eqb_eq in E. subst k0.
      rewrite String.eqb_sym in Hne. now rewrite Hne.
    + now rewrite IH.
Qed.

Lemma keys_dict_set (k : string) (v : json) kvs :
  dict_has k kvs = true -> map fst (dict_set k v kvs) = map fst kvs.
Proof.
  unfold dict_has. induction kvs as [|[k' v'] kvs IH]; simpl; [discriminate|].
  destruct (k' =? k) eqn:E; simpl.
  - apply String.eqb_eq in E. now subst.
  - intros H. now rewrite IH.
Qed.

Lemma strip_field_object (k : string) kvs :
  Enhanced.strip_field k (JObj kvs)
  = match dict_get k kvs with
    | None => Ok (JObj kvs)
    | Some (JStr s) => Ok (JObj (dict_set k (JStr (strip s)) kvs))
    | Some _ => Raise AttributeError
    end.
Proof.
  unfold Enhanced.strip_field, py_in, py_index, dict_has, rbind.
  destruct (dict_get k kvs) as [[| | | | |]|]; reflexivity.
Qed.

(** X19.  What [handle_get_execution] of the enhanced server does to an
    event.  An event whose [code] or [output] is there and is not a text
    is dropped from the answer.  Every other event is returned with the
    same keys in the same order, its [code] and its [output] stripped of
    surrounding whitespace and every other field as it was. *)
Theorem get_execution_strips_two_fields kvs :
  (strippable (dict_get "code" kvs) && strippable (dict_get "output" kvs) = false ->
   Enhanced.tidy (JObj kvs) = [])
  /\ (strippable (dict_get "code" kvs) && strippable (dict_get "output" kvs) = true ->
      exists kvs',
        Enhanced.tidy (JObj kvs) = [JObj kvs']
        /\ map fst kvs' = map fst kvs
        /\ dict_get "code" kvs' = stripped (dict_get "code" kvs)
        /\ dict_get "output" kvs' = stripped (dict_get "output" kvs)
        /\ forall k, k <> "code" -> k <> "output" ->
                     dict_get k kvs' = dict_get k kvs).
Proof.
  unfold Enhanced.tidy. rewrite strip_field_object.
  destruct (dict_get "code" kvs) as [c|] eqn:Hc.
  - destruct c as [| | |s| |]; simpl;
      try (split; [reflexivity|discriminate]).
    rewrite strip_field_object.
    rewrite (dict_get_set_other "code" "output") by discriminate.
    assert (Hhas : dict_has "code" kvs = true) by (unfold dict_has; now rewrite Hc).
    destruct (dict_get "output" kvs) as [o|] eqn:Ho.
    + destruct o as [| | |s'| |]; simpl;
        try (split; [reflexivity|discriminate]).
      split; [discriminate|]. intros _. eexists. split; [reflexivity|].
      assert (Hhas' : dict_has "output" (dict_set "code" (JStr (strip s)) kvs) = true).
      { unfold dict_has.
        rewrite (dict_get_set_other "code" "output") by discriminate.
        now rewrite Ho. }
      repeat split.
      * now rewrite !keys_dict_set.
      * rewrite (dict_get_set_other "output" "code") by discriminate.
        apply dict_get_set_same.
      * apply dict_get_set_same.
      * intros k H1 H2. now rewrite !dict_get_set_other.
    + simpl. split; [discriminate|]. intros _. eexists. split; [reflexivity|].
      repeat split.
      * now rewrite keys_dict_set.
      * apply dict_get_set_same.
      * rewrite (dict_get_set_other "code" "output") by discriminate. exact Ho.
      * intros k H1 H2. now rewrite dict_get_set_other.
  - simpl. rewrite strip_field_object.
    destruct (dict_get "output" kvs) as [o|] eqn:Ho.
    + destruct o as [| | |s'| |]; simpl;
        try (split; [reflexivity|discriminate]).
      split; [discriminate|]. intros _. eexists. split; [reflexivity|].
      assert (Hhas : dict_has "output" kvs = true)
        by (unfold dict_has; now rewrite Ho).
      repeat split.
      * now rewrite keys_dict_set.
      * rewrite (dict_get_set_other "output" "code") by discriminate. exact Hc.
      * apply dict_get_set_same.
      * intros k H1 H2. now rewrite dict_get_set_other.
    + simpl. split; [discriminate|]. intros _. exists kvs.
      repeat split; auto.
Qed.

Lemma get_execution_strips_two_fields_witness :
  exists kvs',
    Enhanced.tidy Cases.padded = [JObj kvs']
    /\ map fst kvs' = ["type"; "code"; "output"]
    /\ dict_get "code" kvs' = Some (JStr "ls -la")
    /\ dict_get "output" kvs' = Some (JStr "ok").
Proof.
  destruct (proj2 (get_execution_strips_two_fields
                     [("type", JStr "code"); ("code", JStr "  ls -la  ");
                      ("output", JStr " ok ")]) eq_refl)
    as (kvs' & Ht & Hk & Hc & Ho & _).
  exists kvs'. repeat split; assumption.
Defined.

Lemma tidy_bare (e : json) : bare_event e = true -> Enhanced.tidy e = [e].
Proof.
  destruct e as [| | | | |kvs]; simpl; try discriminate.
  unfold dict_has. intros H. apply andb_true_iff in H. destruct H as [Hc Ho].
  unfold Enhanced.tidy. rewrite strip_field_object.
  destruct (dict_get "code" kvs); [discriminate|]. simpl.
  rewrite strip_field_object.
  destruct (dict_get "output" kvs); [discriminate|]. reflexivity.
Qed.

Lemma tidy_short (e : json) : length (Enhanced.tidy e) <= 1.
Proof.
  unfold Enhanced.tidy.
  destruct (rbind _ _); simpl; lia.
Qed.

(** X20.  For a file whose events carry neither [code] nor [output], the
    enhanced server answers [getById] as the base and the fixed server
    do: every parsed event, unchanged, in file order.  For any file it
    returns no more entries than they do. *)
Theorem enhanced_get_agrees_on_bare_events (d : store) (id : string) :
  ((forall f, lookup (api_file_name id) d = Some f ->
              forallb bare_event (entries_of (lines_of (holds f))) = true) ->
   Enhanced.handle_get_execution d id = Base.handle_get_execution d id)
  /\ (forall ls,
        length (flat_map Enhanced.tidy (entries_of ls)) <= length (entries_of ls)).
Proof.
  split.
  - intros Hbare.
    unfold Enhanced.handle_get_execution, Base.handle_get_execution.
    destruct (lookup (api_file_name id) d) as [f|]; [|reflexivity].
    specialize (Hbare f eq_refl).
    unfold read_lines. destruct (readable f); [|reflexivity].
    assert (Hsame : flat_map Enhanced.tidy (entries_of (lines_of (holds f)))
                    = entries_of (lines_of (holds f))).
    { induction (entries_of (lines_of (holds f))) as [|e es IH]; [reflexivity|].
      simpl in Hbare. apply andb_true_iff in Hbare. destruct Hbare as [He Hes].
      simpl. rewrite (tidy_bare e He), (IH Hes). reflexivity. }
    now rewrite Hsame.
  - intros ls. apply flat_map_short. apply tidy_short.
Qed.

Lemma enhanced_get_agrees_on_bare_events_witness :
  Enhanced.handle_get_execution Sample.one_run "a1"
  = Base.handle_get_execution Sample.one_run "a1".
Proof.
  apply (proj1 (enhanced_get_agrees_on_bare_events Sample.one_run "a1")).
  intros f H. injection H as <-. reflexivity.
Defined.

(** ** All entries, and the size of the entry views *)

Lemma collect_all_readable (l : list (string * file)) :
  Forall (fun p => readable (snd p) = true) l ->
  Enhanced.collect_all l = Ok (flat_map all_events l).
Proof.
  induction 1 as [|p l Hp Hl IH]; simpl; [reflexivity|].
  unfold read_lines. rewrite Hp. simpl. rewrite IH. reflexivity.
Qed.

Lemma tidy_files_all_well_stamped (l : list (string * file)) :
  forallb tidy_file l = true -> forallb well_stamped (flat_map all_events l) = true.
Proof.
  rewrite !forallb_forall. intros H e He.
  apply in_flat_map in He. destruct He as (p & Hp & He).
  specialize (H p Hp). unfold tidy_file in H.
  apply andb_true_iff in H. destruct H as [_ H].
  rewrite forallb_forall in H. now apply H.
Qed.

(** X21.  The all-entries view of the enhanced server, on a tidy directory:
    every event of the twenty log files modified last, in descending
    order of the timestamps; [entries] holds the first hundred of them,
    [count] is their number, the smaller of 100 and the total, and
    [total_available] is the number of all of them before the cut. *)
Theorem all_entries_algorithm (d : store) :
  tidy_store d = true ->
  exists files events,
    Permutation files (glob_exec d)
    /\ StronglySorted newer_first files
    /\ Permutation events (flat_map all_events (head_n 20 files))
    /\ StronglySorted stamp_desc events
    /\ Enhanced.handle_all_entries d
       = Json (JObj [("entries", JArr (head_n 100 events));
                     ("count", count_of (head_n 100 events));
                     ("total_available", count_of events)])
    /\ length (head_n 100 events) = Nat.min 100 (length events).
Proof.
  intros Htidy. unfold tidy_store in Htidy.
  destruct (by_mtime_desc_sorted (glob_exec d)) as (files & Hfiles & Hperm & Hsort).
  assert (Hfirst : forallb tidy_file (head_n 20 files) = true).
  { apply (forallb_sub tidy_file (glob_exec d)); [|exact Htidy].
    intros p Hp. apply in_firstn in Hp. eapply Permutation_in; eauto. }
  destruct (by_timestamp_desc_sorted (flat_map all_events (head_n 20 files)))
    as (events & Hevents & Hperm' & Hsort').
  { now apply tidy_files_all_well_stamped. }
  exists files, events. repeat split; auto.
  - unfold Enhanced.handle_all_entries.
    rewrite Hfiles. cbv beta iota delta [rbind].
    rewrite (collect_all_readable _ (tidy_files_readable _ Hfirst)).
    rewrite Hevents. reflexivity.
  - apply length_firstn.
Qed.

Lemma all_entries_algorithm_witness :
  exists files events,
    Permutation files (glob_exec Sample.two_runs)
    /\ StronglySorted newer_first files
    /\ Permutation events (flat_map all_events (head_n 20 files))
    /\ StronglySorted stamp_desc events
    /\ Enhanced.handle_all_entries Sample.two_runs
       = Json (JObj [("entries", JArr (head_n 100 events));
                     ("count", count_of (head_n 100 events));
                     ("total_available", count_of events)])
    /\ length (head_n 100 events) = Nat.min 100 (length events).
Proof.
  apply (all_entries_algorithm Sample.two_runs). reflexivity.
Defined.

Lemma entries_of_length (ls : list line) : length (entries_of ls) <= length ls.
Proof.
  induction ls as [|[| |v] ls IH]; simpl; lia.
Qed.

Lemma tail_n_length {A : Type} (n : nat) (l : list A) : length (tail_n n l) <= n.
Proof. unfold tail_n. rewrite length_skipn. lia. Qed.

(** X22.  Whenever an entry view answers with entries, on any directory, tidy
    or not, they are at most 50 for the latest updates of the enhanced
    and of the base server and at most 100 for the all-entries view. *)
Theorem entry_views_are_bounded (d : store) (es : list json)
  (rest : list (string * json)) :
  (Enhanced.handle_latest_updates d = entries_body es rest -> length es <= 50)
  /\ (Base.handle_latest_updates d = entries_body es rest -> length es <= 50)
  /\ (Enhanced.handle_all_entries d = entries_body es rest -> length es <= 100).
Proof.
  unfold entries_body. split; [|split].
  - unfold Enhanced.handle_latest_updates.
    destruct (glob_exec d) as [|p l].
    + intros H. assert (Hes : es = []) by congruence. rewrite Hes. simpl. lia.
    + destruct (rbind _ _) as [latest|e] eqn:E; [|discriminate].
      intros H. assert (Hes : es = latest) by congruence. rewrite Hes.
      unfold rbind in E.
      destruct (Enhanced.by_mtime_desc (p :: l)); [|discriminate].
      destruct (Enhanced.collect_tails _); [|discriminate].
      destruct (Enhanced.by_timestamp_desc _) as [ordered|]; [|discriminate].
      assert (Hl : latest = head_n 50 ordered) by congruence. rewrite Hl.
      exact (firstn_le_length 50 ordered).
  - unfold Base.handle_latest_updates.
    destruct (max_by _ _) as [latest|].
    + destruct (read_lines (snd latest)) as [ls|e]; [|discriminate].
      intros H.
      assert (Hes : es = entries_of (tail_n 50 ls)) by congruence. rewrite Hes.
      etransitivity; [apply entries_of_length|apply tail_n_length].
    + intros H. assert (Hes : es = []) by congruence. rewrite Hes. simpl. lia.
  - unfold Enhanced.handle_all_entries.
    destruct (rbind _ _) as [all|e]; [|discriminate].
    intros H. assert (Hes : es = head_n 100 all) by congruence. rewrite Hes.
    exact (firstn_le_length 100 all).
Qed.

Lemma entry_views_are_bounded_witness :
  length [Sample.event_a; Sample.event_b] <= 50.
Proof.
  apply (proj1 (entry_views_are_bounded Sample.two_runs
                  [Sample.event_a; Sample.event_b] [])).
  reflexivity.
Defined.

(** ** The id the base server reports for the latest file *)

Lemma remove_from_unfold (old : string) (c : ascii) (r : string) :
  remove_from old 0 (String c r)
  = if prefix old (String c r)
    then remove_from old (String.length old - 1) r
    else String c (remove_from old 0 r).
Proof. reflexivity. Qed.

Lemma remove_from_skip (old a s : string) :
  remove_from old (String.length a) (a ++ s) = remove_from old 0 s.
Proof. induction a as [|c a IH]; simpl; [now destruct s|exact IH]. Qed.

Lemma remove_prefix (c : ascii) (o s : string) :
  remove (String c o) (String c o ++ s) = remove (String c o) s.
Proof.
  unfold remove.
  change (String c o ++ s)%string with (String c (o ++ s)).
  rewrite remove_from_unfold.
  change (String c (o ++ s)) with (String c o ++ s)%string.
  rewrite prefix_app.
  replace (String.length (String c o) - 1) with (String.length o)
    by (simpl; lia).
  apply remove_from_skip.
Qed.

Lemma remove_absent (old s : string) : contains old s = false -> remove old s = s.
Proof.
  unfold contains, remove. induction s as [|c r IH]; intros H; [reflexivity|].
  rewrite find_unfold in H. rewrite remove_from_unfold.
  destruct (prefix old (String c r)); [discriminate|].
  destruct (find old r); [discriminate|]. now rewrite IH.
Qed.

Lemma remove_first (c : ascii) (o a b : string) :
  occurs_before (String c o) (a ++ String c o ++ b) (String.length a) = false ->
  remove (String c o) (a ++ String c o ++ b) = (a ++ remove (String c o) b)%string.
Proof.
  induction a as [|x a IH]; intros H.
  - apply remove_prefix.
  - change ((String x a ++ String c o ++ b)%string)
      with (String x (a ++ String c o ++ b)) in *.
    change (String.length (String x a)) with (S (String.length a)) in H.
    change (occurs_before (String c o) (String x (a ++ String c o ++ b))
              (S (String.length a)))
      with (prefix (String c o) (String x (a ++ String c o ++ b))
            || occurs_before (String c o) (a ++ String c o ++ b) (String.length a))
      in H.
    apply orb_false_iff in H. destruct H as [Hp Hb].
    unfold remove in *. rewrite remove_from_unfold, Hp.
    rewrite (IH Hb). reflexivity.
Qed.

(** X23.  From the name of the latest file the base server gets the id back
    by deleting [exec_] and [.json] wherever they occur.  When the name
    [exec_<id>.json] holds [exec_] at its start only and [.json] at its
    end only, and it is the one log file of the directory, the answer
    carries exactly [<id>] as [execution_id], with the parsed lines among
    the last fifty of the file. *)
Theorem latest_id_round_trip (d : store) (id : string) (f : file) :
  contains "exec_" (id ++ ".json") = false ->
  occurs_before ".json" (id ++ ".json") (String.length id) = false ->
  remove ".json" (remove "exec_" (api_file_name id)) = id
  /\ (glob_exec d = [(api_file_name id, f)] ->
      readable f = true ->
      Base.handle_latest_updates d
      = entries_body (entries_of (tail_n 50 (lines_of (holds f))))
          [("execution_id", JStr id)]).
Proof.
  intros Hexec Hjson.
  assert (Hid : remove ".json" (remove "exec_" (api_file_name id)) = id).
  { unfold api_file_name.
    rewrite (remove_prefix "e" "xec_" (id ++ ".json")).
    rewrite (remove_absent _ _ Hexec).
    change (id ++ ".json")%string with (id ++ ".json" ++ "")%string.
    rewrite (remove_first "." "json" id "" Hjson).
    change (remove ".json" "") with "".
    clear. induction id as [|c id IH]; simpl; [reflexivity|now rewrite IH]. }
  split; [exact Hid|].
  intros Hglob Hread.
  unfold Base.handle_latest_updates, entries_body, read_lines.
  rewrite Hglob. cbn [max_by snd fst]. rewrite Hread, Hid. reflexivity.
Qed.

Lemma latest_id_round_trip_witness :
  Base.handle_latest_updates Sample.one_run
  = entries_body [Sample.started; Sample.finished] [("execution_id", JStr "a1")].
Proof.
  apply (proj2 (latest_id_round_trip Sample.one_run "a1" Sample.two_events
                  eq_refl eq_refl));
    reflexivity.
Defined.

(** ** One bad file and the entry views *)

Lemma collect_tails_unreadable (l : list (string * file)) :
  Exists (fun p => readable (snd p) = false) l ->
  Enhanced.collect_tails l = Raise OSError.
Proof.
  induction l as [|p l IH]; intros H; [inversion H|].
  simpl. unfold read_lines. destruct (readable (snd p)) eqn:E; [|reflexivity].
  simpl. rewrite IH; [reflexivity|].
  inversion H as [? ? Hp|? ? Hl]; subst; [congruence|exact Hl].
Qed.

Lemma collect_all_unreadable (l : list (string * file)) :
  Exists (fun p => readable (snd p) = false) l ->
  Enhanced.collect_all l = Raise OSError.
Proof.
  induction l as [|p l IH]; intros H; [inversion H|].
  simpl. unfold read_lines. destruct (readable (snd p)) eqn:E; [|reflexivity].
  simpl. rewrite IH; [reflexivity|].
  inversion H as [? ? Hp|? ? Hl]; subst; [congruence|exact Hl].
Qed.

Lemma timestamp_keys_raise (l : list json) :
  existsb (fun e => negb (is_dict e)) l = true ->
  Enhanced.by_timestamp_desc l = Raise AttributeError.
Proof.
  intros H. unfold Enhanced.by_timestamp_desc, sort_reverse.
  assert (Hkeys : rmap (fun x => py_get x "timestamp" (JStr "")) l
                  = Raise AttributeError).
  { induction l as [|e l IH]; [discriminate|].
    simpl in H. simpl.
    destruct e as [| | | | |kvs]; try reflexivity.
    simpl in H. rewrite (IH H). unfold py_get.
    destruct (dict_get "timestamp" kvs); reflexivity. }
  now rewrite Hkeys.
Qed.

Lemma in_flat_map_existsb {A B : Type} (f : A -> list B) (bad : B -> bool)
  (l : list A) (x : A) :
  In x l -> existsb bad (f x) = true -> existsb bad (flat_map f l) = true.
Proof.
  intros Hin Hbad. apply existsb_exists in Hbad. destruct Hbad as (b & Hb & Hbb).
  apply existsb_exists. exists b. split; [|exact Hbb].
  apply in_flat_map. eauto.
Qed.

(** X24.  Unlike the listing, the entry views of the enhanced server give up
    as a whole.  With at most ten log files in the directory: one file
    that cannot be opened turns the latest updates and all the entries
    into an error answer; and, all files opening, one line among the
    last ten of a file that parses to something else than an object
    turns the latest updates into an error answer. *)
Theorem entry_views_fail_on_one_bad_file (d : store) (p : string * file) :
  length (glob_exec d) <= 10 ->
  In p (glob_exec d) ->
  (readable (snd p) = false ->
   Enhanced.handle_latest_updates d = ErrorOf OSError
   /\ Enhanced.handle_all_entries d = ErrorOf OSError)
  /\ (forallb (fun q => readable (snd q)) (glob_exec d) = true ->
      existsb (fun e => negb (is_dict e)) (tail_events p) = true ->
      Enhanced.handle_latest_updates d = ErrorOf AttributeError).
Proof.
  intros Hlen Hin.
  destruct (by_mtime_desc_sorted (glob_exec d)) as (files & Hfiles & Hperm & _).
  assert (Hlen' : length files <= 10) by now rewrite (Permutation_length Hperm).
  assert (Hin' : In p files) by (eapply Permutation_in; [symmetry|]; eauto).
  assert (H10 : head_n 10 files = files) by now apply head_n_all.
  assert (H20 : head_n 20 files = files) by (apply head_n_all; lia).
  unfold Enhanced.handle_latest_updates, Enhanced.handle_all_entries.
  destruct (glob_exec d) as [|p0 l0] eqn:Hglob; [contradiction|].
  rewrite Hfiles. cbv beta iota delta [rbind]. rewrite H10, H20.
  split.
  - intros Hbad.
    assert (Hex : Exists (fun q => readable (snd q) = false) files)
      by (apply Exists_exists; eauto).
    now rewrite (collect_tails_unreadable _ Hex), (collect_all_unreadable _ Hex).
  - intros Hall Hbad.
    assert (Hread : Forall (fun q => readable (snd q) = true) files).
    { apply Forall_forall. intros q Hq. rewrite forallb_forall in Hall.
      apply Hall. eapply Permutation_in; eauto. }
    rewrite (collect_tails_readable _ Hread).
    rewrite (timestamp_keys_raise (flat_map tail_events files)); [reflexivity|].
    eapply in_flat_map_existsb; eauto.
Qed.

Lemma entry_views_fail_on_one_bad_file_witness :
  (Enhanced.handle_latest_updates Cases.half_locked = ErrorOf OSError
   /\ Enhanced.handle_all_entries Cases.half_locked = ErrorOf OSError)
  /\ Enhanced.handle_latest_updates Cases.with_number = ErrorOf AttributeError.
Proof.
  split.
  - apply (proj1 (entry_views_fail_on_one_bad_file Cases.half_locked
                    ("exec_l.json",
                     {| mtime := 1; readable := false; holds := Events [] |})
                    ltac:(simpl; lia) ltac:(simpl; tauto)) eq_refl).
  - apply (proj2 (entry_views_fail_on_one_bad_file Cases.with_number
                    ("exec_a.json",
                     Sample.events_file 20
                       [Parsed Sample.event_a; Parsed (JNum 3)])
                    ltac:(simpl; lia) ltac:(simpl; tauto)) eq_refl eq_refl).
Defined.

(** ** Saving twice under one id *)

(** X25.  [save_log] keeps one file per id and the last entry saved: after
    two saves under the same id the file of the id holds the second
    entry, the directory is no longer than after the first save, and
    every other file is the one it was before both. *)
Theorem save_log_overwrites (exec_id : string) (e1 e2 : log_entry)
  (w : Wrapper.world) :
  let w1 := Wrapper.save_log exec_id e1 w in
  let w2 := Wrapper.save_log exec_id e2 w1 in
  let name := Wrapper.log_file_name exec_id in
  lookup name (Wrapper.files w1)
  = Some {| mtime := Wrapper.clock w; readable := true; holds := Snapshot e1 |}
  /\ lookup name (Wrapper.files w2)
     = Some {| mtime := Wrapper.clock w; readable := true; holds := Snapshot e2 |}
  /\ length (Wrapper.files w2) = length (Wrapper.files w1)
  /\ (forall other, other <> name ->
        lookup other (Wrapper.files w2) = lookup other (Wrapper.files w))
  /\ Wrapper.trace w2
     = Wrapper.trace w ++ [Wrapper.Saved name e1; Wrapper.Saved name e2].
Proof.
  intros w1 w2 name. subst w1 w2 name. unfold Wrapper.save_log.
  cbn [Wrapper.files Wrapper.clock Wrapper.trace].
  repeat split.
  - apply lookup_write_same.
  - apply lookup_write_same.
  - now rewrite length_write_file, path_exists_write_same.
  - intros other Hother. now rewrite !lookup_write_other.
  - now rewrite <- app_assoc.
Qed.

Lemma save_log_overwrites_witness :
  lookup "notes.txt"
    (Wrapper.files
       (Wrapper.save_log "exec-1"
          (snd (Wrapper.create_log_entry Sample.isoformat Sample.strftime
                  Sample.md5_hexdigest "ls" "shell" None Sample.greeter))
          (Wrapper.save_log "exec-1"
             (snd (Wrapper.create_log_entry Sample.isoformat Sample.strftime
                     Sample.md5_hexdigest "pwd" "shell" None Sample.greeter))
             Sample.greeter)))
  = lookup "notes.txt" (Wrapper.files Sample.greeter).
Proof.
  apply (proj1 (proj2 (proj2 (proj2
           (save_log_overwrites "exec-1"
              (snd (Wrapper.create_log_entry Sample.isoformat Sample.strftime
                      Sample.md5_hexdigest "pwd" "shell" None Sample.greeter))
              (snd (Wrapper.create_log_entry Sample.isoformat Sample.strftime
                      Sample.md5_hexdigest "ls" "shell" None Sample.greeter))
              Sample.greeter))))).
  vm_compute. discriminate.
Defined.
